(** * scaraplate: merge strategies ([scaraplate/strategies.py])

    A shallow embedding of the strategies of [strategies.py] and the
    properties of their [apply] methods.

    Conventions of the embedding.
    - Python [bytes] is [string], a sequence of bytes.  In
      [SortedUniqueLines], whose result depends on the characters of its
      input, a Python [str] is a list of code points ([Str.str]):
      [decode()] and [encode()] are the strict UTF-8 codec of [Str], with
      its [UnicodeDecodeError], and [str.casefold] is a parameter of the
      strategy.  The other strategies move their text around unread, or
      read requirement specifiers and comment lines, which are ASCII:
      there a [str] is the [string] of its bytes, and [lower] and
      [casefold] act on the ASCII letters.
    - A [BinaryIO] stream is its buffer together with its read position.
    - A [ConfigParser] is an ordered dictionary from section names to
      ordered dictionaries from keys to values, as the parser keeps them;
      the [DEFAULT] section and value interpolation are not modelled.
    - Python exceptions are the [Raise] results of an error monad.
    - The functions of [scaraplate/parsers.py], which the strategies
      import, are the fields of two interfaces ([Requirements] and
      [Parsers]); the strategies are written over any implementation. *)

From Stdlib Require Import List String Ascii Bool Arith PeanoNat NArith ZArith Lia.
From Stdlib Require Import Permutation Sorted.
Import ListNotations.
Local Open Scope string_scope.
Local Open Scope list_scope.

(** ** Python built-ins used by the strategies *)

Module Py.

(** *** Exceptions *)

Inductive exception : Type :=
| KeyError (key : string)
| ParseError (source : string)
| UnicodeDecodeError
| UnicodeEncodeError.

Inductive result (A : Type) : Type :=
| Ok (a : A)
| Raise (e : exception).

Arguments Ok {A} a.
Arguments Raise {A} e.

Definition bind {A B : Type} (m : result A) (k : A -> result B) : result B :=
  match m with
  | Ok a => k a
  | Raise e => Raise e
  end.

(** *** Streams: [io.BytesIO] *)

Record BinaryIO : Type := mkBinaryIO { getvalue : string; tell : nat }.

Definition BytesIO (b : string) : BinaryIO :=
  {| getvalue := b; tell := 0 |}.

Fixpoint drop (n : nat) (s : string) : string :=
  match n, s with
  | O, _ => s
  | S _, EmptyString => EmptyString
  | S n', String _ s' => drop n' s'
  end.

(** [f.read()]: the bytes from the read position to the end. *)
Definition read (f : BinaryIO) : string := drop (tell f) (getvalue f).

(** [f.seek(pos)]. *)
Definition seek (f : BinaryIO) (pos : nat) : BinaryIO :=
  {| getvalue := getvalue f; tell := pos |}.

(** *** Strings *)

Definition LF : ascii := ascii_of_nat 10.

(** The line boundaries of [str.splitlines] that are below 256. *)
Definition is_linebreak (c : ascii) : bool :=
  let n := nat_of_ascii c in
  Nat.eqb n 10 || Nat.eqb n 11 || Nat.eqb n 12 || Nat.eqb n 13
  || Nat.eqb n 28 || Nat.eqb n 29 || Nat.eqb n 30 || Nat.eqb n 133.

Definition is_CR (c : ascii) : bool := Nat.eqb (nat_of_ascii c) 13.
Definition is_LF (c : ascii) : bool := Nat.eqb (nat_of_ascii c) 10.

(** [cur] holds the characters of the line being read. *)
Fixpoint splitlines_from (cur : string) (s : string) : list string :=
  match s with
  | EmptyString =>
      match cur with
      | EmptyString => []
      | _ => [cur]
      end
  | String c rest =>
      if is_linebreak c then
        match rest with
        | String c' rest' =>
            if is_CR c && is_LF c'
            then cur :: splitlines_from EmptyString rest'
            else cur :: splitlines_from EmptyString rest
        | EmptyString => cur :: splitlines_from EmptyString rest
        end
      else splitlines_from (cur ++ String c EmptyString) rest
  end.

(** [s.splitlines()] *)
Definition splitlines (s : string) : list string :=
  splitlines_from EmptyString s.

Fixpoint split_from (sep : ascii) (cur : string) (s : string) : list string :=
  match s with
  | EmptyString => [cur]
  | String c rest =>
      if Ascii.eqb c sep
      then cur :: split_from sep EmptyString rest
      else split_from sep (cur ++ String c EmptyString) rest
  end.

(** The character [c] occurs in [s]. *)
Fixpoint has_char (c : ascii) (s : string) : bool :=
  match s with
  | EmptyString => false
  | String c' s' => Ascii.eqb c' c || has_char c s'
  end.

(** [s.split(sep)] for a one-character separator. *)
Definition split (sep : ascii) (s : string) : list string :=
  split_from sep EmptyString s.

(** [sep.join(ls)] *)
Definition join (sep : string) (ls : list string) : string :=
  String.concat sep ls.

(** [sub in s] on [bytes] and [str]. *)
Fixpoint contains (sub s : string) : bool :=
  String.prefix sub s
  || match s with
     | EmptyString => false
     | String _ s' => contains sub s'
     end.

Definition lower_char (c : ascii) : ascii :=
  let n := nat_of_ascii c in
  if Nat.leb 65 n && Nat.leb n 90 then ascii_of_nat (n + 32) else c.

(** [s.lower()] on ASCII text. *)
Fixpoint lower (s : string) : string :=
  match s with
  | EmptyString => EmptyString
  | String c s' => String (lower_char c) (lower s')
  end.

(** [s.casefold()] on ASCII text, where it is [s.lower()]: the sort key
    of the requirement specifiers in [SetupcfgMerge]. The case folding of
    [SortedUniqueLines], whose lines are any text, is the parameter of
    [SortedUniqueLines.apply]. *)
Definition casefold (s : string) : string := lower s.

(** *** Sorting: [sorted(l, key=...)], a stable sort *)

Section Sorted.
Context {A K : Type}.
Variable key : A -> K.
Variable le : K -> K -> bool.

Fixpoint insert (x : A) (l : list A) : list A :=
  match l with
  | [] => [x]
  | y :: l' => if le (key x) (key y) then x :: l else y :: insert x l'
  end.

Definition sorted (l : list A) : list A := fold_right insert [] l.

(** The order that [sorted] establishes. *)
Definition key_le (a b : A) : Prop := le (key a) (key b) = true.
End Sorted.

(** [set(l)], in one of its iteration orders. *)
Definition set (l : list string) : list string := nodup string_dec l.

(** *** Dictionaries, in insertion order *)

Section Dict.
Context {V : Type}.

Definition dict : Type := list (string * V).

Fixpoint dict_get (d : dict) (k : string) : option V :=
  match d with
  | [] => None
  | (k', v) :: d' => if String.eqb k' k then Some v else dict_get d' k
  end.

(** [d[k] = v] *)
Fixpoint dict_set (d : dict) (k : string) (v : V) : dict :=
  match d with
  | [] => [(k, v)]
  | (k', v') :: d' =>
      if String.eqb k' k then (k', v) :: d' else (k', v') :: dict_set d' k v
  end.

Definition keys (d : dict) : list string := map fst d.

(** [d[k]], which raises [KeyError]. *)
Definition getitem (d : dict) (k : string) : result V :=
  match dict_get d k with
  | Some v => Ok v
  | None => Raise (KeyError k)
  end.
End Dict.

Arguments dict V : clear implicits.

End Py.

Import Py.

Notation "x <- m ;; k" := (bind m (fun x => k))
  (at level 61, m at next level, right associativity).

(** [for x in l: s = body(s, x)], where the body may raise. *)
Fixpoint for_each {A S : Type} (l : list A) (body : S -> A -> result S)
  (s : S) : result S :=
  match l with
  | [] => Ok s
  | x :: l' => s' <- body s x ;; for_each l' body s'
  end.

(** ** Python [str] as code points, and the UTF-8 codec *)

Module Str.

Local Open Scope N_scope.

(** A [str]: its code points. *)
Definition str : Type := list N.

Definition eq_dec : forall a b : str, {a = b} + {a <> b} :=
  list_eq_dec N.eq_dec.

(** The code point of the newline. *)
Definition LF : N := 10.

(** The line boundaries of [str.splitlines]. *)
Definition is_linebreak (c : N) : bool :=
  N.eqb c 10 || N.eqb c 11 || N.eqb c 12 || N.eqb c 13
  || N.eqb c 28 || N.eqb c 29 || N.eqb c 30 || N.eqb c 133
  || N.eqb c 8232 || N.eqb c 8233.

(** [cur] holds the characters of the line being read. *)
Fixpoint splitlines_from (cur : str) (s : str) : list str :=
  match s with
  | [] =>
      match cur with
      | [] => []
      | _ => [cur]
      end
  | c :: rest =>
      if is_linebreak c then
        match rest with
        | c' :: rest' =>
            if N.eqb c 13 && N.eqb c' 10
            then cur :: splitlines_from [] rest'
            else cur :: splitlines_from [] rest
        | [] => cur :: splitlines_from [] rest
        end
      else splitlines_from (cur ++ [c]) rest
  end.

(** [s.splitlines()] *)
Definition splitlines (s : str) : list str := splitlines_from [] s.

(** [sep.join(ls)] *)
Fixpoint join (sep : str) (ls : list str) : str :=
  match ls with
  | [] => []
  | [x] => x
  | x :: ls' => x ++ sep ++ join sep ls'
  end.

(** The order of Python on [str]: by code points, the first difference
    decides. *)
Fixpoint compare (a b : str) : comparison :=
  match a, b with
  | [], [] => Eq
  | [], _ :: _ => Lt
  | _ :: _, [] => Gt
  | x :: a', y :: b' =>
      match N.compare x y with
      | Eq => compare a' b'
      | c => c
      end
  end.

Definition leb (a b : str) : bool :=
  match compare a b with
  | Gt => false
  | _ => true
  end.

(** The order of Python on pairs of [str]. *)
Definition pair_leb (a b : str * str) : bool :=
  match compare (fst a) (fst b) with
  | Lt => true
  | Gt => false
  | Eq => leb (snd a) (snd b)
  end.

(** [set(l)], in one of its iteration orders. *)
Definition set (l : list str) : list str := nodup eq_dec l.

(** A code point that UTF-8 encodes: at most [0x10FFFF] and no
    surrogate. *)
Definition is_surrogate (cp : N) : bool := N.leb 55296 cp && N.leb cp 57343.

Definition is_scalar (cp : N) : bool :=
  N.leb cp 1114111 && negb (is_surrogate cp).

Definition is_continuation (c : ascii) : bool :=
  N.leb 128 (N_of_ascii c) && N.ltb (N_of_ascii c) 192.

(** The six low bits of a continuation byte. *)
Definition low_bits (c : ascii) : N := N_of_ascii c - 128.

(** [b.decode()]: the strict UTF-8 decoder. Overlong forms, surrogates,
    code points above [0x10FFFF], stray continuation bytes and truncated
    sequences raise [UnicodeDecodeError]. *)
Fixpoint decode (b : string) : result str :=
  match b with
  | EmptyString => Ok []
  | String c1 r1 =>
      let b1 := N_of_ascii c1 in
      if N.ltb b1 128 then
        rest <- decode r1 ;; Ok (b1 :: rest)
      else if N.leb 194 b1 && N.ltb b1 224 then
        match r1 with
        | String c2 r2 =>
            if is_continuation c2
            then rest <- decode r2 ;;
                 Ok (((b1 - 192) * 64 + low_bits c2) :: rest)
            else Raise UnicodeDecodeError
        | _ => Raise UnicodeDecodeError
        end
      else if N.leb 224 b1 && N.ltb b1 240 then
        match r1 with
        | String c2 (String c3 r3) =>
            let cp := (b1 - 224) * 4096 + low_bits c2 * 64 + low_bits c3 in
            if is_continuation c2 && is_continuation c3
               && N.leb 2048 cp && negb (is_surrogate cp)
            then rest <- decode r3 ;; Ok (cp :: rest)
            else Raise UnicodeDecodeError
        | _ => Raise UnicodeDecodeError
        end
      else if N.leb 240 b1 && N.ltb b1 245 then
        match r1 with
        | String c2 (String c3 (String c4 r4)) =>
            let cp :=
              (b1 - 240) * 262144 + low_bits c2 * 4096
              + low_bits c3 * 64 + low_bits c4 in
            if is_continuation c2 && is_continuation c3 && is_continuation c4
               && N.leb 65536 cp && N.leb cp 1114111
            then rest <- decode r4 ;; Ok (cp :: rest)
            else Raise UnicodeDecodeError
        | _ => Raise UnicodeDecodeError
        end
      else Raise UnicodeDecodeError
  end.

Definition byte (n : N) : string := String (ascii_of_N n) EmptyString.

(** The UTF-8 form of one code point. *)
Definition encode_char (cp : N) : result string :=
  if N.ltb cp 128 then Ok (byte cp)
  else if N.ltb cp 2048 then
    Ok (byte (192 + cp / 64) ++ byte (128 + cp mod 64))%string
  else if N.ltb cp 65536 then
    if is_surrogate cp then Raise UnicodeEncodeError
    else Ok (byte (224 + cp / 4096) ++ byte (128 + (cp / 64) mod 64)
             ++ byte (128 + cp mod 64))%string
  else if N.leb cp 1114111 then
    Ok (byte (240 + cp / 262144) ++ byte (128 + (cp / 4096) mod 64)
        ++ byte (128 + (cp / 64) mod 64) ++ byte (128 + cp mod 64))%string
  else Raise UnicodeEncodeError.

(** [s.encode()]: UTF-8; a surrogate raises [UnicodeEncodeError]. *)
Fixpoint encode (s : str) : result string :=
  match s with
  | [] => Ok EmptyString
  | cp :: s' =>
      first <- encode_char cp ;;
      rest <- encode s' ;;
      Ok (first ++ rest)%string
  end.

(** Modelled on ASCII only: [s.casefold()] on text whose letters are
    ASCII, where it turns [A] to [Z] into [a] to [z]. The strategies take
    the function as a parameter; this one serves the examples. *)
Definition ascii_casefold (s : str) : str :=
  map (fun c => if N.leb 65 c && N.leb c 90 then c + 32 else c) s.

End Str.

(** ** Regular expressions: the patterns of [strategies.py] *)

Module Re.

Inductive atom : Type :=
| Lit (c : ascii)
| AnyChar.

(** A compiled pattern: a sequence of atoms, followed or not by [$]. *)
Record Pattern : Type := mkPattern { atoms : list atom; dollar : bool }.

Definition atom_of (c : ascii) : atom :=
  if Ascii.eqb c "." then AnyChar else Lit c.

Fixpoint compile_body (s : string) : list atom * bool :=
  match s with
  | EmptyString => ([], false)
  | String c rest =>
      match rest with
      | EmptyString =>
          if Ascii.eqb c "$" then ([], true) else ([atom_of c], false)
      | _ => let (a, d) := compile_body rest in (atom_of c :: a, d)
      end
  end.

(** [re.compile(s)] for sources made of an optional leading [^], literal
    characters and [.], and an optional trailing [$]. The leading [^] is
    dropped: the patterns are only used through [Pattern.match], which
    matches at the start of the string. *)
Definition compile (s : string) : Pattern :=
  let (a, d) :=
    match s with
    | String c rest => if Ascii.eqb c "^" then compile_body rest else compile_body s
    | EmptyString => compile_body s
    end in
  {| atoms := a; dollar := d |}.

(** [.] matches any character except a newline. *)
Definition atom_matches (a : atom) (c : ascii) : bool :=
  match a with
  | Lit c' => Ascii.eqb c' c
  | AnyChar => negb (Ascii.eqb c LF)
  end.

Fixpoint match_atoms (a : list atom) (s : string) : option string :=
  match a with
  | [] => Some s
  | x :: a' =>
      match s with
      | EmptyString => None
      | String c s' => if atom_matches x c then match_atoms a' s' else None
      end
  end.

(** Two sequences of atoms that ask for different characters at one
    position, so that no string matches both. *)
Fixpoint clash (a1 a2 : list atom) : bool :=
  match a1, a2 with
  | Lit c1 :: a1', Lit c2 :: a2' => negb (Ascii.eqb c1 c2) || clash a1' a2'
  | _ :: a1', _ :: a2' => clash a1' a2'
  | _, _ => false
  end.

(** [$] matches at the end of the string and just before a newline that
    ends the string. *)
Definition at_dollar (rest : string) : bool :=
  String.eqb rest EmptyString || String.eqb rest (String LF EmptyString).

(** [p.match(s)] is not [None]. *)
Definition matches (p : Pattern) (s : string) : bool :=
  match match_atoms (atoms p) s with
  | None => false
  | Some rest => if dollar p then at_dollar rest else true
  end.

End Re.

(** ** [configparser.ConfigParser] *)

Module ConfigParser.

Definition SectionProxy : Type := dict string.
Definition t : Type := dict SectionProxy.

(** [parser.sections()] *)
Definition sections (parser : t) : list string := keys parser.

Definition has_section (parser : t) (section : string) : bool :=
  match dict_get parser section with
  | Some _ => true
  | None => false
  end.

(** [parser.add_section(section)], for a section the parser lacks. *)
Definition add_section (parser : t) (section : string) : t :=
  parser ++ [(section, [])].

(** The value of [key] in [section], when both exist. *)
Definition lookup (parser : t) (section key : string) : option string :=
  match dict_get parser section with
  | Some d => dict_get d key
  | None => None
  end.

Fixpoint distinct (l : list string) : bool :=
  match l with
  | [] => true
  | x :: l' => negb (existsb (String.eqb x) l') && distinct l'
  end.

(** The invariant of a parser: no section name and, within a section, no
    key occurs twice. *)
Definition wf (parser : t) : bool :=
  distinct (sections parser)
  && forallb (fun item : string * SectionProxy => distinct (keys (snd item))) parser.

(** [parser[section][key]] *)
Definition get (parser : t) (section key : string) : result string :=
  d <- getitem parser section ;; getitem d key.

(** [parser[section] = data] *)
Definition set_section (parser : t) (section : string) (data : dict string) : t :=
  dict_set parser section data.

(** [parser[section][key] = value] *)
Definition set (parser : t) (section key value : string) : result t :=
  d <- getitem parser section ;;
  Ok (dict_set parser section (dict_set d key value)).

End ConfigParser.

(** ** [scaraplate.parsers] and [scaraplate.template] *)

(** The requirement helpers of [parsers.py]. *)
Class Requirements : Type := {
  requirement_name : string -> string;
  parse_setupcfg_requirements : string -> list string;
  dump_setupcfg_requirements : list string -> string
}.

(** The parsers and the serializer of [parsers.py]; a parser may raise. *)
Class Parsers : Type := {
  pylintrc_parser : BinaryIO -> string -> result ConfigParser.t;
  setup_cfg_parser : BinaryIO -> string -> result ConfigParser.t;
  parser_to_pretty_output : ConfigParser.t -> BinaryIO
}.

(** The fields of [TemplateMeta] that the strategies read. *)
Record TemplateMeta : Type := mkTemplateMeta {
  is_git_dirty : bool;
  commit_url : string
}.

(** ** The strategies *)

Definition _ensure_section (parser : ConfigParser.t) (section : string)
  : ConfigParser.t :=
  if negb (ConfigParser.has_section parser section)
  then ConfigParser.add_section parser section
  else parser.

Record Strategy : Type := mkStrategy {
  target_contents : option BinaryIO;
  template_contents : BinaryIO;
  template_meta : TemplateMeta
}.

Module Overwrite.
Definition apply (self : Strategy) : BinaryIO := template_contents self.
End Overwrite.

Module IfMissing.
Definition apply (self : Strategy) : BinaryIO :=
  match target_contents self with
  | None => template_contents self
  | Some target => target
  end.
End IfMissing.

Module SortedUniqueLines.

Section WithCasefold.

(** [str.casefold], the full case folding of Unicode. *)
Variable casefold : Str.str -> Str.str.

(** The sort key [lambda s: (s.casefold(), s)]. *)
Definition key (s : Str.str) : Str.str * Str.str := (casefold s, s).

(** Lines 67 to 69: the lines of the template followed by the lines of
    the target; decoding the template or the target may raise. *)
Definition read_lines (self : Strategy) : result (list Str.str) :=
  text <- Str.decode (read (template_contents self)) ;;
  let out_lines := Str.splitlines text in
  match target_contents self with
  | Some target =>
      text <- Str.decode (read target) ;;
      Ok (out_lines ++ Str.splitlines text)
  | None => Ok out_lines
  end.

(** Lines 77 and 79: the lines sorted, once each, without the empty
    line. *)
Definition sorted_unique (out_lines : list Str.str) : list Str.str :=
  let out_lines := sorted key Str.pair_leb (Str.set out_lines) in
  filter (fun line => match line with [] => false | _ => true end) out_lines.

Definition apply (self : Strategy) : result BinaryIO :=
  out_lines <- read_lines self ;;
  let out_lines := sorted_unique out_lines in
  let out_lines := out_lines ++ [[]] in
  out_bytes <- Str.encode (Str.join [Str.LF] out_lines) ;;
  Ok (BytesIO out_bytes).

End WithCasefold.

End SortedUniqueLines.

Module TemplateHash.

(** The classes [TemplateHash], [PythonTemplateHash] and
    [GroovyTemplateHash]. *)
Inductive cls : Type :=
| Base
| Python
| Groovy.

Definition line_comment_start (c : cls) : string :=
  match c with
  | Groovy => "//"
  | _ => "#"
  end.

Definition line_length : nat := 87.

Definition generated_by : string :=
  "Generated by https://github.com/rambler-digital-solutions/scaraplate".

(** [TemplateHash.comment] *)
Definition base_comment (c : cls) (self : Strategy) : string :=
  let comment_lines := [generated_by] in
  let comment_lines :=
    if is_git_dirty (template_meta self)
    then comment_lines ++ [("From (dirty) " ++ commit_url (template_meta self))%string]
    else comment_lines ++ [("From " ++ commit_url (template_meta self))%string] in
  join EmptyString
    (map (fun line => (line_comment_start c ++ " " ++ line ++ String LF EmptyString)%string)
       comment_lines).

Definition _maybe_add_noqa (line : string) : string :=
  if Nat.leb line_length (String.length line)
  then (line ++ "  # noqa")%string
  else line.

(** [self.comment()], which [PythonTemplateHash] overrides. *)
Definition comment (c : cls) (self : Strategy) : string :=
  match c with
  | Python =>
      let comment := base_comment c self in
      let comment_lines := split LF comment in
      let comment_lines := map _maybe_add_noqa comment_lines in
      join (String LF EmptyString) comment_lines
  | _ => base_comment c self
  end.

(** The test of line 109, on the text read from the target. *)
Definition keeps_target (c : cls) (self : Strategy) (target_text : string) : bool :=
  contains (comment c self) target_text
  && negb (is_git_dirty (template_meta self)).

Definition apply (c : cls) (self : Strategy) : BinaryIO :=
  let comment := comment c self in
  let from_template :=
    let out_bytes := read (template_contents self) in
    let out_bytes := (out_bytes ++ String LF EmptyString ++ comment)%string in
    BytesIO out_bytes in
  match target_contents self with
  | Some target =>
      let target_text := read target in
      if keeps_target c self target_text
      then seek target 0
      else from_template
  | None => from_template
  end.

End TemplateHash.

(** [PylintrcMerge._maybe_preserve_key] and
    [SetupcfgMerge._maybe_preserve_key], which are the same function. *)
Definition _maybe_preserve_key (template_parser target_parser : ConfigParser.t)
  (section key : string) : result ConfigParser.t :=
  match ConfigParser.get target_parser section key with
  | Raise (KeyError _) => Ok template_parser
  | Raise e => Raise e
  | Ok target =>
      let template_parser := _ensure_section template_parser section in
      ConfigParser.set template_parser section key target
  end.

Module PylintrcMerge.

(** The body of [apply] between parsing and serialization. *)
Definition merge (template_parser : ConfigParser.t)
  (target_parser : option ConfigParser.t) : result ConfigParser.t :=
  match target_parser with
  | Some target_parser =>
      template_parser <-
        _maybe_preserve_key template_parser target_parser "TYPECHECK" "ignored-modules" ;;
      _maybe_preserve_key template_parser target_parser "TYPECHECK" "ignored-classes"
  | None => Ok template_parser
  end.

Definition apply `{Parsers} (self : Strategy) : result BinaryIO :=
  template_parser <- pylintrc_parser (template_contents self) ".pylintrc.template" ;;
  target_parser <-
    match target_contents self with
    | Some target =>
        target_parser <- pylintrc_parser target ".pylintrc.target" ;;
        Ok (Some target_parser)
    | None => Ok None
    end ;;
  template_parser <- merge template_parser target_parser ;;
  Ok (parser_to_pretty_output template_parser).

End PylintrcMerge.

Module SetupcfgMerge.

(** The loop of lines 266 to 268: the items of the section of the
    template whose key matches [ignore_keys_pattern] are written into
    [section_data]. *)
Definition restore_keys (ignore_keys_pattern : Re.Pattern)
  (template_section section_data : dict string) : dict string :=
  fold_left
    (fun section_data (item : string * string) =>
       let (key, value) := item in
       if Re.matches ignore_keys_pattern key
       then dict_set section_data key value
       else section_data)
    template_section section_data.

(** The body of the loop of [_maybe_preserve_sections]. *)
Definition preserve_section (target_parser : ConfigParser.t)
  (sections_pattern : Re.Pattern) (ignore_keys_pattern : option Re.Pattern)
  (template_parser : ConfigParser.t) (section : string)
  : result ConfigParser.t :=
  if Re.matches sections_pattern section then
    section_data <- getitem target_parser section ;;
    section_data <-
      match ignore_keys_pattern with
      | Some ignore_keys_pattern =>
          template_section <- getitem template_parser section ;;
          Ok (restore_keys ignore_keys_pattern template_section section_data)
      | None => Ok section_data
      end ;;
    Ok (ConfigParser.set_section template_parser section section_data)
  else Ok template_parser.

Definition _maybe_preserve_sections (template_parser target_parser : ConfigParser.t)
  (sections_pattern : Re.Pattern) (ignore_keys_pattern : option Re.Pattern)
  : result ConfigParser.t :=
  for_each (ConfigParser.sections target_parser)
    (preserve_section target_parser sections_pattern ignore_keys_pattern)
    template_parser.

Section WithRequirements.
Context {R : Requirements}.

Definition _parse_requirements (parser : ConfigParser.t) (section key : string)
  : result (list string) :=
  match ConfigParser.get parser section key with
  | Raise (KeyError _) => Ok []
  | Raise e => Raise e
  | Ok requirements => Ok (parse_setupcfg_requirements requirements)
  end.

Definition normalize_requirement (requirement : string) : string :=
  lower (requirement_name requirement).

(** Lines 290 to 300 of [_merge_requirements]: the sorted list
    [wanted_requirements]. The list starts as the target's list itself;
    the names of the target were collected before anything is appended. *)
Definition wanted_requirements (template_requirements target_requirements : list string)
  : list string :=
  let existing_requirement_names :=
    set (map normalize_requirement target_requirements) in
  let wanted_requirements :=
    fold_left
      (fun wanted_requirements requirement =>
         let name := normalize_requirement requirement in
         if negb (existsb (String.eqb name) existing_requirement_names)
         then wanted_requirements ++ [requirement]
         else wanted_requirements)
      template_requirements target_requirements in
  sorted casefold String.leb wanted_requirements.

Definition _merge_requirements (template_parser : ConfigParser.t)
  (target_parser : option ConfigParser.t) (section key : string)
  : result ConfigParser.t :=
  template_requirements <- _parse_requirements template_parser section key ;;
  target_requirements <-
    match target_parser with
    | Some target_parser => _parse_requirements target_parser section key
    | None => Ok []
    end ;;
  let wanted_requirements :=
    wanted_requirements template_requirements target_requirements in
  let template_parser := _ensure_section template_parser section in
  ConfigParser.set template_parser section key
    (dump_setupcfg_requirements wanted_requirements).

(** Lines 209 to 233 of [apply]: the five calls of
    [_maybe_preserve_sections]. *)
Definition preserve_sections (template_parser target_parser : ConfigParser.t)
  : result ConfigParser.t :=
  template_parser <-
    _maybe_preserve_sections template_parser target_parser
      (Re.compile "^freebsd$") None ;;
  template_parser <-
    _maybe_preserve_sections template_parser target_parser
      (Re.compile "^mypy-") None ;;
  template_parser <-
    _maybe_preserve_sections template_parser target_parser
      (Re.compile "^options.data_files$") None ;;
  template_parser <-
    _maybe_preserve_sections template_parser target_parser
      (Re.compile "^options.entry_points$") None ;;
  _maybe_preserve_sections template_parser target_parser
    (Re.compile "^options.extras_require$") (Some (Re.compile "^develop$")).

(** The body of [apply] between parsing and serialization. *)
Definition merge (template_parser : ConfigParser.t)
  (target_parser : option ConfigParser.t) : result ConfigParser.t :=
  template_parser <-
    match target_parser with
    | Some target_parser =>
        template_parser <- preserve_sections template_parser target_parser ;;
        template_parser <-
          _maybe_preserve_key template_parser target_parser "tool:pytest" "testpaths" ;;
        _maybe_preserve_key template_parser target_parser "build" "executable"
    | None => Ok template_parser
    end ;;
  template_parser <-
    _merge_requirements template_parser target_parser
      "options.extras_require" "develop" ;;
  _merge_requirements template_parser target_parser "options" "install_requires".

Definition apply `{Parsers} (self : Strategy) : result BinaryIO :=
  template_parser <- setup_cfg_parser (template_contents self) "setup.cfg.template" ;;
  target_parser <-
    match target_contents self with
    | Some target =>
        target_parser <- setup_cfg_parser target "setup.cfg.target" ;;
        Ok (Some target_parser)
    | None => Ok None
    end ;;
  template_parser <- merge template_parser target_parser ;;
  Ok (parser_to_pretty_output template_parser).

End WithRequirements.

End SetupcfgMerge.

(** ** An implementation of the requirement helpers *)

Module SpecRequirements.

Definition is_name_char (c : ascii) : bool :=
  let n := nat_of_ascii c in
  (Nat.leb 48 n && Nat.leb n 57) || (Nat.leb 65 n && Nat.leb n 90)
  || (Nat.leb 97 n && Nat.leb n 122)
  || Nat.eqb n 45 || Nat.eqb n 46 || Nat.eqb n 95.

(** Modelled from the spec: [requirement_name] of [parsers.py], which
    "extracts the leading package-identifier token of a specifier,
    ignoring version operators, extras in brackets, and environment
    markers". *)
Fixpoint requirement_name (specifier : string) : string :=
  match specifier with
  | EmptyString => EmptyString
  | String c rest =>
      if is_name_char c then String c (requirement_name rest) else EmptyString
  end.

(** An entry of spaces and tabs only. *)
Fixpoint is_blank (entry : string) : bool :=
  match entry with
  | EmptyString => true
  | String c rest =>
      (Nat.eqb (nat_of_ascii c) 32 || Nat.eqb (nat_of_ascii c) 9) && is_blank rest
  end.

(** Modelled from the spec: [parse_setupcfg_requirements] of [parsers.py],
    which "splits a multi-line, possibly comma/newline-delimited field
    into individual specifier strings, discarding blank entries". The
    field is cut at its line boundaries and at its commas. *)
Definition parse_setupcfg_requirements (text : string) : list string :=
  let entries := flat_map (split ",") (splitlines text) in
  filter (fun entry => negb (is_blank entry)) entries.

(** Modelled from the spec: [dump_setupcfg_requirements] of [parsers.py],
    which "re-serializes a list of specifiers back into the field's
    on-disk line format (one per line [...])". *)
Definition dump_setupcfg_requirements (requirements : list string) : string :=
  join EmptyString (map (fun r => String LF r) requirements).

#[export] Instance requirements : Requirements := {
  requirement_name := requirement_name;
  parse_setupcfg_requirements := parse_setupcfg_requirements;
  dump_setupcfg_requirements := dump_setupcfg_requirements
}.

End SpecRequirements.

(** * Properties *)

(** ** The order of strings *)

Lemma ascii_compare_refl (c : ascii) : Ascii.compare c c = Eq.
Proof. unfold Ascii.compare. apply N.compare_refl. Qed.

Lemma string_compare_refl (s : string) : String.compare s s = Eq.
Proof.
  induction s as [|c s IH]; simpl; [reflexivity|].
  now rewrite ascii_compare_refl.
Qed.

Lemma string_compare_eq (a b : string) : String.compare a b = Eq <-> a = b.
Proof.
  split; [apply String.compare_eq_iff|intros ->; apply string_compare_refl].
Qed.

Lemma string_compare_gt_lt (a b : string) :
  String.compare a b = Gt <-> String.compare b a = Lt.
Proof.
  rewrite (String.compare_antisym a b).
  destruct (String.compare b a); simpl; split; congruence.
Qed.

Lemma ascii_compare_lt_trans (a b c : ascii) :
  Ascii.compare a b = Lt -> Ascii.compare b c = Lt -> Ascii.compare a c = Lt.
Proof.
  unfold Ascii.compare. rewrite !N.compare_lt_iff. apply N.lt_trans.
Qed.

Lemma string_compare_lt_trans (a b c : string) :
  String.compare a b = Lt -> String.compare b c = Lt -> String.compare a c = Lt.
Proof.
  revert b c; induction a as [|x a IH]; intros [|y b] [|z c]; simpl;
    try congruence.
  destruct (Ascii.compare x y) eqn:Hxy; try discriminate.
  - apply Ascii.compare_eq_iff in Hxy; subst y.
    destruct (Ascii.compare x z); try congruence. apply IH.
  - intros _.
    destruct (Ascii.compare y z) eqn:Hyz; try discriminate.
    + apply Ascii.compare_eq_iff in Hyz; subst z. now rewrite Hxy.
    + intros _. now rewrite (ascii_compare_lt_trans _ _ _ Hxy Hyz).
Qed.

Lemma string_leb_iff (a b : string) :
  String.leb a b = true <-> String.compare a b <> Gt.
Proof.
  unfold String.leb. destruct (String.compare a b); split; congruence.
Qed.

Lemma string_leb_trans (a b c : string) :
  String.leb a b = true -> String.leb b c = true -> String.leb a c = true.
Proof.
  rewrite !string_leb_iff. intros Hab Hbc.
  destruct (String.compare a b) eqn:E1; try congruence.
  - apply string_compare_eq in E1; now subst.
  - destruct (String.compare b c) eqn:E2; try congruence.
    + apply string_compare_eq in E2; subst. now rewrite E1.
    + now rewrite (string_compare_lt_trans _ _ _ E1 E2).
Qed.

(** ** Sorting *)

Section SortedFacts.
Context {A K : Type}.
Variable key : A -> K.
Variable le : K -> K -> bool.
Hypothesis le_total : forall a b, le a b = true \/ le b a = true.
Hypothesis le_trans :
  forall a b c, le a b = true -> le b c = true -> le a c = true.

Local Abbreviation key_le := (Py.key_le key le).

Lemma insert_perm (x : A) (l : list A) :
  Permutation (insert key le x l) (x :: l).
Proof.
  induction l as [|y l IH]; simpl; [reflexivity|].
  destruct (le (key x) (key y)); [reflexivity|].
  rewrite IH. apply perm_swap.
Qed.

Lemma sorted_perm (l : list A) : Permutation (sorted key le l) l.
Proof.
  induction l as [|x l IH]; simpl; [reflexivity|].
  rewrite insert_perm. now constructor.
Qed.

Lemma insert_sorted (x : A) (l : list A) :
  StronglySorted key_le l -> StronglySorted key_le (insert key le x l).
Proof.
  induction 1 as [|y l Hs IH Hall]; simpl.
  - repeat constructor.
  - destruct (le (key x) (key y)) eqn:E.
    + constructor; [now constructor|].
      constructor; [exact E|].
      rewrite Forall_forall in *. intros z Hz.
      eapply le_trans; [exact E|]. now apply Hall.
    + constructor; [exact IH|].
      rewrite Forall_forall in *. intros z Hz.
      apply (Permutation_in _ (insert_perm x l)) in Hz.
      destruct Hz as [<-|Hz]; [|now apply Hall].
      destruct (le_total (key x) (key y)); [congruence|assumption].
Qed.

Lemma sorted_sorted (l : list A) : StronglySorted key_le (sorted key le l).
Proof.
  induction l as [|x l IH]; simpl; [constructor|now apply insert_sorted].
Qed.

Lemma sorted_in (l : list A) (x : A) : In x (sorted key le l) <-> In x l.
Proof.
  split; apply Permutation_in;
    [apply sorted_perm|apply Permutation_sym, sorted_perm].
Qed.

(** A list that is sorted by an antisymmetric order is determined by
    its elements. *)
Lemma strongly_sorted_unique (l1 l2 : list A) :
  (forall a b, key_le a b -> key_le b a -> a = b) ->
  StronglySorted key_le l1 -> StronglySorted key_le l2 ->
  Permutation l1 l2 -> l1 = l2.
Proof.
  intros Hanti Hs1; revert l2.
  induction Hs1 as [|a l1 Hs1 IH Ha]; intros l2 Hs2 Hp.
  - now apply Permutation_nil in Hp.
  - destruct Hs2 as [|b l2 Hs2 Hb].
    + now apply Permutation_sym, Permutation_nil in Hp.
    + assert (a = b) as <-.
      { rewrite Forall_forall in Ha, Hb.
        assert (Hin1 : In a (b :: l2))
          by (apply (Permutation_in _ Hp); now left).
        assert (Hin2 : In b (a :: l1))
          by (apply (Permutation_in _ (Permutation_sym Hp)); now left).
        destruct Hin1 as [->|Hin1]; [reflexivity|].
        destruct Hin2 as [->|Hin2]; [reflexivity|].
        apply Hanti; [now apply Ha|now apply Hb]. }
      f_equal. apply IH; [assumption|].
      now apply Permutation_cons_inv in Hp.
Qed.

Lemma sorted_unique (l1 l2 : list A) :
  (forall a b, key_le a b -> key_le b a -> a = b) ->
  Permutation l1 l2 -> sorted key le l1 = sorted key le l2.
Proof.
  intros Hanti Hp.
  apply strongly_sorted_unique; auto using sorted_sorted.
  rewrite !sorted_perm. exact Hp.
Qed.
End SortedFacts.

Lemma strongly_sorted_filter {A : Type} (R : A -> A -> Prop) (f : A -> bool)
  (l : list A) :
  StronglySorted R l -> StronglySorted R (filter f l).
Proof.
  induction 1 as [|x l Hs IH Hall]; simpl; [constructor|].
  destruct (f x); [|exact IH].
  constructor; [exact IH|].
  rewrite Forall_forall in *. intros y Hy.
  apply filter_In in Hy. now apply Hall.
Qed.

(** [set] keeps each element once. *)
Lemma set_in (l : list string) (x : string) : In x (set l) <-> In x l.
Proof. apply nodup_In. Qed.

Lemma set_NoDup (l : list string) : NoDup (set l).
Proof. apply NoDup_nodup. Qed.

Lemma set_perm (l1 l2 : list string) :
  (forall x, In x l1 <-> In x l2) -> Permutation (set l1) (set l2).
Proof.
  intros H. apply NoDup_Permutation; auto using set_NoDup.
  intros x. rewrite !set_in. apply H.
Qed.

(** ** Strings and lines *)

Lemma string_app_assoc (a b c : string) : ((a ++ b) ++ c = a ++ (b ++ c))%string.
Proof. induction a as [|x a IH]; simpl; [reflexivity|now rewrite IH]. Qed.

Lemma string_app_nil_r (a : string) : (a ++ "" = a)%string.
Proof. induction a as [|x a IH]; simpl; [reflexivity|now rewrite IH]. Qed.

(** ** The order of [str] *)

Lemma str_compare_refl (s : Str.str) : Str.compare s s = Eq.
Proof.
  induction s as [|c s IH]; simpl; [reflexivity|].
  now rewrite N.compare_refl.
Qed.

Lemma str_compare_eq (a b : Str.str) : Str.compare a b = Eq -> a = b.
Proof.
  revert b; induction a as [|x a IH]; intros [|y b]; simpl; try discriminate.
  - reflexivity.
  - destruct (N.compare x y) eqn:E; try discriminate.
    apply N.compare_eq in E. subst y. intros H. f_equal. now apply IH.
Qed.

Lemma str_compare_antisym (a b : Str.str) :
  Str.compare a b = CompOpp (Str.compare b a).
Proof.
  revert b; induction a as [|x a IH]; intros [|y b]; simpl; try reflexivity.
  rewrite (N.compare_antisym y x).
  destruct (N.compare y x); simpl; auto.
Qed.

Lemma str_compare_lt_trans (a b c : Str.str) :
  Str.compare a b = Lt -> Str.compare b c = Lt -> Str.compare a c = Lt.
Proof.
  revert b c; induction a as [|x a IH]; intros [|y b] [|z c]; simpl;
    try congruence.
  destruct (N.compare x y) eqn:Hxy; try discriminate.
  - apply N.compare_eq in Hxy. subst y.
    destruct (N.compare x z); try congruence. apply IH.
  - intros _. destruct (N.compare y z) eqn:Hyz; try discriminate.
    + apply N.compare_eq in Hyz. subst z. now rewrite Hxy.
    + intros _. apply N.compare_lt_iff in Hxy, Hyz.
      assert (Hxz : (x < z)%N) by (eapply N.lt_trans; eassumption).
      apply N.compare_lt_iff in Hxz. now rewrite Hxz.
Qed.

Lemma str_leb_total (a b : Str.str) : Str.leb a b = true \/ Str.leb b a = true.
Proof.
  unfold Str.leb. rewrite (str_compare_antisym b a).
  destruct (Str.compare a b); simpl; auto.
Qed.

Lemma str_leb_antisym (a b : Str.str) :
  Str.leb a b = true -> Str.leb b a = true -> a = b.
Proof.
  unfold Str.leb. rewrite (str_compare_antisym b a).
  destruct (Str.compare a b) eqn:E; simpl; try discriminate.
  intros _ _. now apply str_compare_eq.
Qed.

Lemma str_leb_trans (a b c : Str.str) :
  Str.leb a b = true -> Str.leb b c = true -> Str.leb a c = true.
Proof.
  unfold Str.leb.
  destruct (Str.compare a b) eqn:E1; try discriminate; intros _.
  - apply str_compare_eq in E1. now subst.
  - destruct (Str.compare b c) eqn:E2; try discriminate; intros _.
    + apply str_compare_eq in E2. subst. now rewrite E1.
    + now rewrite (str_compare_lt_trans _ _ _ E1 E2).
Qed.

Lemma pair_leb_total (a b : Str.str * Str.str) :
  Str.pair_leb a b = true \/ Str.pair_leb b a = true.
Proof.
  unfold Str.pair_leb. rewrite (str_compare_antisym (fst b) (fst a)).
  destruct (Str.compare (fst a) (fst b)); simpl; auto.
  apply str_leb_total.
Qed.

Lemma pair_leb_trans (a b c : Str.str * Str.str) :
  Str.pair_leb a b = true -> Str.pair_leb b c = true -> Str.pair_leb a c = true.
Proof.
  unfold Str.pair_leb.
  destruct (Str.compare (fst a) (fst b)) eqn:E1; try discriminate.
  - apply str_compare_eq in E1. rewrite E1.
    destruct (Str.compare (fst b) (fst c)); try discriminate; auto.
    apply str_leb_trans.
  - intros _.
    destruct (Str.compare (fst b) (fst c)) eqn:E2; try discriminate.
    + apply str_compare_eq in E2. rewrite <- E2, E1. reflexivity.
    + now rewrite (str_compare_lt_trans _ _ _ E1 E2).
Qed.

Lemma pair_leb_antisym (a b : Str.str * Str.str) :
  Str.pair_leb a b = true -> Str.pair_leb b a = true -> snd a = snd b.
Proof.
  unfold Str.pair_leb. rewrite (str_compare_antisym (fst b) (fst a)).
  destruct (Str.compare (fst a) (fst b)); simpl; try discriminate.
  apply str_leb_antisym.
Qed.

(** ** The UTF-8 codec *)

Ltac Zify.zify_post_hook ::= Z.to_euclidean_division_equations.

Ltac N_tests :=
  repeat match goal with
         | |- context [N.ltb ?a ?b] => destruct (N.ltb_spec a b); try lia
         | |- context [N.leb ?a ?b] => destruct (N.leb_spec a b); try lia
         end.

Ltac bools :=
  repeat match goal with
         | H : _ && _ = true |- _ => apply andb_true_iff in H as [? ?]
         | H : N.leb _ _ = true |- _ => apply N.leb_le in H
         | H : N.ltb _ _ = true |- _ => apply N.ltb_lt in H
         | H : negb _ = true |- _ => apply negb_true_iff in H
         end.

Lemma Ok_inj {A : Type} (a b : A) : Ok a = Ok b -> a = b.
Proof. now intros [= ->]. Qed.

Lemma byte_app (n : N) (s : string) :
  (Str.byte n ++ s)%string = String (ascii_of_N n) s.
Proof. reflexivity. Qed.

(** One step of the decoder. *)
Lemma decode_cons (c1 : ascii) (r1 : string) :
  Str.decode (String c1 r1)
  = let b1 := N_of_ascii c1 in
    if N.ltb b1 128 then
      rest <- Str.decode r1 ;; Ok (b1 :: rest)
    else if N.leb 194 b1 && N.ltb b1 224 then
      match r1 with
      | String c2 r2 =>
          if Str.is_continuation c2
          then rest <- Str.decode r2 ;;
               Ok (((b1 - 192) * 64 + Str.low_bits c2)%N :: rest)
          else Raise UnicodeDecodeError
      | _ => Raise UnicodeDecodeError
      end
    else if N.leb 224 b1 && N.ltb b1 240 then
      match r1 with
      | String c2 (String c3 r3) =>
          let cp := ((b1 - 224) * 4096 + Str.low_bits c2 * 64 + Str.low_bits c3)%N in
          if Str.is_continuation c2 && Str.is_continuation c3
             && N.leb 2048 cp && negb (Str.is_surrogate cp)
          then rest <- Str.decode r3 ;; Ok (cp :: rest)
          else Raise UnicodeDecodeError
      | _ => Raise UnicodeDecodeError
      end
    else if N.leb 240 b1 && N.ltb b1 245 then
      match r1 with
      | String c2 (String c3 (String c4 r4)) =>
          let cp :=
            ((b1 - 240) * 262144 + Str.low_bits c2 * 4096
             + Str.low_bits c3 * 64 + Str.low_bits c4)%N in
          if Str.is_continuation c2 && Str.is_continuation c3 && Str.is_continuation c4
             && N.leb 65536 cp && N.leb cp 1114111
          then rest <- Str.decode r4 ;; Ok (cp :: rest)
          else Raise UnicodeDecodeError
      | _ => Raise UnicodeDecodeError
      end
    else Raise UnicodeDecodeError.
Proof. reflexivity. Qed.

(** Decoding the UTF-8 form of a code point gives the code point. *)
Lemma decode_encode_char (cp : N) (bs rest : string) :
  Str.encode_char cp = Ok bs ->
  Str.decode (bs ++ rest) = (r <- Str.decode rest ;; Ok (cp :: r)).
Proof.
  unfold Str.encode_char, Str.is_surrogate.
  destruct (N.ltb_spec cp 128).
  { intros E%Ok_inj. subst bs. rewrite byte_app, decode_cons. cbv zeta.
    rewrite N_ascii_embedding by lia. N_tests. reflexivity. }
  destruct (N.ltb_spec cp 2048).
  { intros E%Ok_inj. subst bs.
    rewrite !string_app_assoc, !byte_app, decode_cons. cbv zeta.
    unfold Str.is_continuation, Str.low_bits.
    rewrite !N_ascii_embedding by lia. N_tests. cbn [andb].
    destruct (Str.decode rest); cbn [bind]; [do 2 f_equal; lia|reflexivity]. }
  destruct (N.ltb_spec cp 65536).
  { destruct (N.leb_spec 55296 cp); destruct (N.leb_spec cp 57343); cbn [andb];
      try discriminate; intros E%Ok_inj; subst bs;
      rewrite !string_app_assoc, !byte_app, decode_cons; cbv zeta;
      unfold Str.is_continuation, Str.low_bits, Str.is_surrogate;
      rewrite !N_ascii_embedding by lia; N_tests; cbn [andb negb];
      (destruct (Str.decode rest); cbn [bind]; [do 2 f_equal; lia|reflexivity]). }
  destruct (N.leb_spec cp 1114111); [|discriminate].
  intros E%Ok_inj. subst bs.
  rewrite !string_app_assoc, !byte_app, decode_cons. cbv zeta.
  unfold Str.is_continuation, Str.low_bits.
  rewrite !N_ascii_embedding by lia. N_tests. cbn [andb].
  destruct (Str.decode rest); cbn [bind]; [do 2 f_equal; lia|reflexivity].
Qed.

(** [s.encode().decode()] is [s]. *)
Lemma decode_encode (s : Str.str) (b : string) :
  Str.encode s = Ok b -> Str.decode b = Ok s.
Proof.
  revert b; induction s as [|cp s IH]; intros b; simpl.
  - now intros [= <-].
  - destruct (Str.encode_char cp) as [first|] eqn:E1; cbn [bind]; [|discriminate].
    destruct (Str.encode s) as [rest|] eqn:E2; cbn [bind]; [|discriminate].
    intros [= <-]. rewrite (decode_encode_char cp first rest E1).
    now rewrite (IH rest eq_refl).
Qed.

Lemma encode_app (s s' : Str.str) (b b' : string) :
  Str.encode s = Ok b -> Str.encode s' = Ok b' ->
  Str.encode (s ++ s') = Ok (b ++ b')%string.
Proof.
  revert b; induction s as [|cp s IH]; intros b; simpl.
  - now intros [= <-].
  - destruct (Str.encode_char cp) as [first|]; cbn [bind]; [|discriminate].
    destruct (Str.encode s) as [rest|]; cbn [bind]; [|discriminate].
    intros [= <-] E'. rewrite (IH rest eq_refl E'). cbn [bind].
    now rewrite string_app_assoc.
Qed.

Lemma encode_char_scalar (cp : N) :
  Str.is_scalar cp = true -> exists bs, Str.encode_char cp = Ok bs.
Proof.
  unfold Str.is_scalar, Str.encode_char.
  intros [Hmax Hs]%andb_true_iff. apply negb_true_iff in Hs. rewrite Hs, Hmax.
  destruct (N.ltb cp 128); [eauto|].
  destruct (N.ltb cp 2048); [eauto|].
  destruct (N.ltb cp 65536); eauto.
Qed.

Lemma encode_scalar (s : Str.str) :
  Forall (fun cp => Str.is_scalar cp = true) s -> exists b, Str.encode s = Ok b.
Proof.
  induction 1 as [|cp s Hcp Hs [rest IH]]; simpl; [eauto|].
  destruct (encode_char_scalar cp Hcp) as [first ->]. rewrite IH. cbn [bind]. eauto.
Qed.


Lemma not_surrogate (cp : N) :
  (cp < 55296 \/ 57343 < cp)%N -> Str.is_surrogate cp = false.
Proof.
  intros H. unfold Str.is_surrogate.
  destruct (N.leb_spec 55296 cp), (N.leb_spec cp 57343); try reflexivity; lia.
Qed.

Lemma scalar_intro (cp : N) :
  (cp <= 1114111)%N -> Str.is_surrogate cp = false -> Str.is_scalar cp = true.
Proof.
  intros H1 H2. unfold Str.is_scalar. rewrite H2.
  apply andb_true_iff. split; [now apply N.leb_le|reflexivity].
Qed.

(** What the decoder returns: a first code point, which UTF-8 encodes,
    and the decoding of a shorter rest; it raises [UnicodeDecodeError]
    only. *)
Lemma decode_cons_inv (c1 : ascii) (r1 : string) :
  match Str.decode (String c1 r1) with
  | Ok t =>
      exists cp r t',
        t = cp :: t' /\ Str.decode r = Ok t' /\ Str.is_scalar cp = true
        /\ (String.length r <= String.length r1)%nat
  | Raise e =>
      e = UnicodeDecodeError
      \/ exists r, Str.decode r = Raise e /\ (String.length r <= String.length r1)%nat
  end.
Proof.
  assert (Hbind : forall cp r,
             Str.is_scalar cp = true ->
             (String.length r <= String.length r1)%nat ->
             match (rest <- Str.decode r ;; Ok (cp :: rest)) with
             | Ok t =>
                 exists cp r t',
                   t = cp :: t' /\ Str.decode r = Ok t' /\ Str.is_scalar cp = true
                   /\ (String.length r <= String.length r1)%nat
             | Raise e =>
                 e = UnicodeDecodeError
                 \/ exists r, Str.decode r = Raise e
                              /\ (String.length r <= String.length r1)%nat
             end).
  { intros cp r Hcp Hr. destruct (Str.decode r) as [t'|e] eqn:E; cbn [bind].
    - exists cp, r, t'. auto.
    - right. exists r. auto. }
  rewrite decode_cons. cbv zeta.
  pose proof (N_ascii_bounded c1) as Hb1.
  destruct (N.ltb_spec (N_of_ascii c1) 128).
  { apply Hbind; [|lia]. apply scalar_intro; [lia|]. apply not_surrogate. lia. }
  destruct (N.leb 194 (N_of_ascii c1) && N.ltb (N_of_ascii c1) 224) eqn:E2.
  { destruct r1 as [|c2 r2]; [now left|].
    destruct (Str.is_continuation c2) eqn:Ec2; [|now left].
    unfold Str.is_continuation, Str.low_bits in *. bools.
    apply Hbind; [|simpl; lia].
    apply scalar_intro; [lia|]. apply not_surrogate. lia. }
  destruct (N.leb 224 (N_of_ascii c1) && N.ltb (N_of_ascii c1) 240) eqn:E3.
  { destruct r1 as [|c2 [|c3 r3]]; [now left|now left|].
    match goal with |- context [if ?c then _ else _] => destruct c eqn:Ec end;
      [|now left].
    unfold Str.is_continuation, Str.low_bits in *. bools.
    apply Hbind; [|simpl; lia].
    apply scalar_intro; [lia|assumption]. }
  destruct (N.leb 240 (N_of_ascii c1) && N.ltb (N_of_ascii c1) 245) eqn:E4;
    [|now left].
  destruct r1 as [|c2 [|c3 [|c4 r4]]]; [now left|now left|now left|].
  match goal with |- context [if ?c then _ else _] => destruct c eqn:Ec end;
    [|now left].
  unfold Str.is_continuation, Str.low_bits in *. bools.
  apply Hbind; [|simpl; lia].
  apply scalar_intro; [lia|]. apply not_surrogate. lia.
Qed.

Lemma decode_scalar (b : string) (t : Str.str) :
  Str.decode b = Ok t -> Forall (fun cp => Str.is_scalar cp = true) t.
Proof.
  remember (String.length b) as n eqn:Hn. revert b t Hn.
  induction n as [n IH] using lt_wf_ind. intros [|c1 r1] t Hn.
  - intros [= <-]. constructor.
  - intros E. pose proof (decode_cons_inv c1 r1) as H. rewrite E in H.
    destruct H as (cp & r & t' & -> & Er & Hcp & Hlen).
    constructor; [exact Hcp|].
    apply (IH (String.length r)) with (b := r); simpl in *; auto; lia.
Qed.

Lemma decode_raises (b : string) (e : exception) :
  Str.decode b = Raise e -> e = UnicodeDecodeError.
Proof.
  remember (String.length b) as n eqn:Hn. revert b Hn.
  induction n as [n IH] using lt_wf_ind. intros [|c1 r1] Hn.
  - discriminate.
  - intros E. pose proof (decode_cons_inv c1 r1) as H. rewrite E in H.
    destruct H as [->|(r & Er & Hlen)]; [reflexivity|].
    apply (IH (String.length r)) with (b := r); simpl in *; auto; lia.
Qed.

(** ** Lines of a [str] *)

Lemma splitlines_from_Forall (P : N -> Prop) (s cur : Str.str) :
  Forall P cur -> Forall P s -> Forall (Forall P) (Str.splitlines_from cur s).
Proof.
  remember (List.length s) as n eqn:Hn. revert s cur Hn.
  induction n as [n IH] using lt_wf_ind. intros s cur Hn Hcur Hs.
  destruct s as [|c rest]; simpl.
  - destruct cur; [constructor|]. constructor; [exact Hcur|constructor].
  - inversion Hs as [|? ? Hc Hrest]; subst.
    destruct (Str.is_linebreak c).
    + destruct rest as [|c' rest'].
      * constructor; [exact Hcur|]. simpl. constructor.
      * inversion Hrest as [|? ? Hc' Hrest']; subst.
        destruct (N.eqb c 13 && N.eqb c' 10).
        -- constructor; [exact Hcur|].
           apply (IH (List.length rest')); simpl; auto; lia.
        -- constructor; [exact Hcur|].
           apply (IH (List.length (c' :: rest'))); simpl; auto; lia.
    + apply (IH (List.length rest)); simpl; auto; try lia.
      apply Forall_app. split; [exact Hcur|]. now constructor.
Qed.

(** No line of [splitlines] holds a line boundary. *)
Lemma splitlines_from_no_linebreak (s cur : Str.str) :
  Forall (fun c => Str.is_linebreak c = false) cur ->
  Forall (Forall (fun c => Str.is_linebreak c = false)) (Str.splitlines_from cur s).
Proof.
  remember (List.length s) as n eqn:Hn. revert s cur Hn.
  induction n as [n IH] using lt_wf_ind. intros s cur Hn Hcur.
  destruct s as [|c rest]; simpl.
  - destruct cur; [constructor|]. constructor; [exact Hcur|constructor].
  - destruct (Str.is_linebreak c) eqn:Hc.
    + destruct rest as [|c' rest'].
      * constructor; [exact Hcur|]. simpl. constructor.
      * destruct (N.eqb c 13 && N.eqb c' 10).
        -- constructor; [exact Hcur|].
           apply (IH (List.length rest')); simpl in *; auto; lia.
        -- constructor; [exact Hcur|].
           apply (IH (List.length (c' :: rest'))); simpl in *; auto; lia.
    + apply (IH (List.length rest)); simpl in *; auto; try lia.
      apply Forall_app. split; [exact Hcur|]. now constructor.
Qed.

Lemma splitlines_from_line (line rest cur : Str.str) :
  Forall (fun c => Str.is_linebreak c = false) line ->
  Str.splitlines_from cur (line ++ Str.LF :: rest)
  = (cur ++ line) :: Str.splitlines_from [] rest.
Proof.
  intros Hline; revert cur. induction Hline as [|c line Hc Hline IH]; intros cur.
  - simpl. rewrite app_nil_r. now destruct rest.
  - simpl. rewrite Hc, IH, <- app_assoc. reflexivity.
Qed.

Lemma join_lines_cons (line : Str.str) (lines : list Str.str) :
  Str.join [Str.LF] ((line :: lines) ++ [[]])
  = line ++ Str.LF :: Str.join [Str.LF] (lines ++ [[]]).
Proof. simpl. destruct lines; reflexivity. Qed.

(** Joining lines and an empty string with newlines, and splitting the
    text again, gives the lines. *)
Lemma splitlines_join (lines : list Str.str) :
  Forall (Forall (fun c => Str.is_linebreak c = false)) lines ->
  Str.splitlines (Str.join [Str.LF] (lines ++ [[]])) = lines.
Proof.
  induction 1 as [|line lines Hline Hall IH].
  - reflexivity.
  - rewrite join_lines_cons. unfold Str.splitlines in *.
    rewrite splitlines_from_line by assumption. simpl. now rewrite IH.
Qed.

Lemma join_lines_Forall (P : N -> Prop) (lines : list Str.str) :
  P Str.LF -> Forall (Forall P) lines ->
  Forall P (Str.join [Str.LF] (lines ++ [[]])).
Proof.
  intros HLF. induction 1 as [|line lines Hline Hall IH]; [constructor|].
  rewrite join_lines_cons. apply Forall_app. split; [exact Hline|].
  now constructor.
Qed.




(** ** SortedUniqueLines *)

Module SortedUniqueLinesFacts.
Import SortedUniqueLines.

Lemma str_set_in (l : list Str.str) (x : Str.str) : In x (Str.set l) <-> In x l.
Proof. apply nodup_In. Qed.

Lemma nonempty_true (line : Str.str) :
  match line with [] => false | _ => true end = true <-> line <> [].
Proof. destruct line; split; congruence. Qed.

Section WithCasefold.
Variable casefold : Str.str -> Str.str.

Lemma sorted_unique_in (l : list Str.str) (line : Str.str) :
  In line (sorted_unique casefold l) <-> line <> [] /\ In line l.
Proof.
  unfold sorted_unique. rewrite filter_In, sorted_in, str_set_in, nonempty_true.
  tauto.
Qed.

Lemma sorted_unique_NoDup (l : list Str.str) : NoDup (sorted_unique casefold l).
Proof.
  unfold sorted_unique. apply NoDup_filter.
  eapply Permutation_NoDup; [apply Permutation_sym, sorted_perm|].
  apply NoDup_nodup.
Qed.

Lemma sorted_unique_sorted (l : list Str.str) :
  StronglySorted (key_le (key casefold) Str.pair_leb) (sorted_unique casefold l).
Proof.
  unfold sorted_unique. apply strongly_sorted_filter.
  apply sorted_sorted; [apply pair_leb_total|apply pair_leb_trans].
Qed.

(** The result depends on the set of the non-empty lines only, so the
    iteration order of the set does not show. *)
Lemma sorted_unique_ext (l l' : list Str.str) :
  (forall line, line <> [] -> (In line l <-> In line l')) ->
  sorted_unique casefold l = sorted_unique casefold l'.
Proof.
  intros H.
  apply (strongly_sorted_unique (key casefold) Str.pair_leb);
    auto using sorted_unique_sorted.
  - intros a b Hab Hba. apply (pair_leb_antisym _ _ Hab Hba).
  - apply NoDup_Permutation; auto using sorted_unique_NoDup.
    intros line. rewrite !sorted_unique_in. split; intros [Hne Hin]; split; auto;
      now apply (H line Hne).
Qed.

Lemma sorted_unique_Forall (P : Str.str -> Prop) (l : list Str.str) :
  Forall P l -> Forall P (sorted_unique casefold l).
Proof.
  rewrite !Forall_forall. intros H line Hin.
  apply sorted_unique_in in Hin. now apply H.
Qed.

Lemma read_lines_decoded (self : Strategy) (template_text : Str.str)
  (target_text : option Str.str) :
  Str.decode (read (template_contents self)) = Ok template_text ->
  match target_contents self, target_text with
  | Some target, Some text => Str.decode (read target) = Ok text
  | None, None => True
  | _, _ => False
  end ->
  read_lines self
  = Ok (Str.splitlines template_text
        ++ match target_text with
           | Some text => Str.splitlines text
           | None => []
           end).
Proof.
  intros Et Eg. unfold read_lines. rewrite Et. cbn [bind].
  destruct (target_contents self) as [target|], target_text as [text|];
    try contradiction.
  - rewrite Eg. reflexivity.
  - now rewrite app_nil_r.
Qed.

Lemma read_lines_inv (self : Strategy) (l : list Str.str) :
  read_lines self = Ok l ->
  exists template_text target_text,
    Str.decode (read (template_contents self)) = Ok template_text
    /\ match target_contents self, target_text with
       | Some target, Some text => Str.decode (read target) = Ok text
       | None, None => True
       | _, _ => False
       end
    /\ l = Str.splitlines template_text
           ++ match target_text with
              | Some text => Str.splitlines text
              | None => []
              end.
Proof.
  unfold read_lines.
  destruct (Str.decode (read (template_contents self))) as [t|] eqn:Et;
    cbn [bind]; [|discriminate].
  destruct (target_contents self) as [target|].
  - destruct (Str.decode (read target)) as [g|] eqn:Eg; cbn [bind]; [|discriminate].
    intros [= <-]. exists t, (Some g). auto.
  - intros [= <-]. exists t, None. rewrite app_nil_r. auto.
Qed.


Lemma read_lines_Forall (P : N -> Prop) (self : Strategy) (l : list Str.str) :
  (forall b t, Str.decode b = Ok t -> Forall P t) ->
  read_lines self = Ok l -> Forall (Forall P) l.
Proof.
  intros HP E. apply read_lines_inv in E as (t & g & Et & Eg & ->).
  apply Forall_app. split.
  - apply splitlines_from_Forall; [constructor|]. now apply (HP _ _ Et).
  - destruct (target_contents self) as [target|], g as [g|]; try contradiction;
      [|constructor].
    apply splitlines_from_Forall; [constructor|]. now apply (HP _ _ Eg).
Qed.

Lemma read_lines_no_linebreak (self : Strategy) (l : list Str.str) :
  read_lines self = Ok l ->
  Forall (Forall (fun c => Str.is_linebreak c = false)) l.
Proof.
  intros E. apply read_lines_inv in E as (t & g & Et & Eg & ->).
  apply Forall_app. split.
  - apply splitlines_from_no_linebreak. constructor.
  - destruct g; [|constructor]. apply splitlines_from_no_linebreak. constructor.
Qed.

(** When the inputs decode, the output encodes. *)
Lemma apply_lines (self : Strategy) (l : list Str.str) :
  read_lines self = Ok l ->
  exists b,
    Str.encode (Str.join [Str.LF] (sorted_unique casefold l ++ [[]])) = Ok b
    /\ apply casefold self = Ok (BytesIO b).
Proof.
  intros E. unfold apply. rewrite E. cbn [bind].
  destruct (encode_scalar (Str.join [Str.LF] (sorted_unique casefold l ++ [[]])))
    as [b Eb].
  { apply join_lines_Forall; [reflexivity|].
    apply sorted_unique_Forall.
    apply (read_lines_Forall _ self l decode_scalar E). }
  exists b. now rewrite Eb.
Qed.

Lemma apply_inv (self : Strategy) (out : BinaryIO) :
  apply casefold self = Ok out ->
  exists l,
    read_lines self = Ok l
    /\ out = BytesIO (getvalue out)
    /\ Str.encode (Str.join [Str.LF] (sorted_unique casefold l ++ [[]]))
       = Ok (getvalue out)
    /\ Str.decode (read out)
       = Ok (Str.join [Str.LF] (sorted_unique casefold l ++ [[]]))
    /\ Str.splitlines (Str.join [Str.LF] (sorted_unique casefold l ++ [[]]))
       = sorted_unique casefold l.
Proof.
  intros E. destruct (read_lines self) as [l|e] eqn:El.
  - destruct (apply_lines self l El) as (b & Eb & Ea).
    rewrite Ea in E. injection E as <-. exists l. split; [reflexivity|].
    split; [reflexivity|]. split; [exact Eb|]. split.
    + unfold read. simpl. now apply decode_encode.
    + apply splitlines_join. apply sorted_unique_Forall.
      now apply (read_lines_no_linebreak self).
  - unfold apply in E. rewrite El in E. discriminate.
Qed.


Lemma apply_ext (self self' : Strategy) (l l' : list Str.str) :
  read_lines self = Ok l -> read_lines self' = Ok l' ->
  (forall line, line <> [] -> (In line l <-> In line l')) ->
  apply casefold self = apply casefold self'.
Proof.
  intros E E' H. unfold apply. rewrite E, E'. cbn [bind].
  now rewrite (sorted_unique_ext l l' H).
Qed.

(** The lines that a later application reads from an output. *)
Lemma lines_of_output (self : Strategy) (out : BinaryIO) :
  apply casefold self = Ok out ->
  exists l text,
    read_lines self = Ok l
    /\ Str.decode (read out) = Ok text
    /\ Str.splitlines text = sorted_unique casefold l.
Proof.
  intros E. destruct (apply_inv self out E) as (l & El & _ & _ & Ed & Es).
  eauto.
Qed.

End WithCasefold.

End SortedUniqueLinesFacts.




(** A case folding that changes the length of a line: with the sharp s
    (code point 223, bytes 195 and 159) folded to [ss], as [str.casefold]
    does, the line of the sharp s comes before [st]. *)
Example SortedUniqueLines_sharp_s :
  let casefold :=
    flat_map (fun c => if N.eqb c 223 then [115; 115]%N else Str.ascii_casefold [c]) in
  let sharp_s := String (ascii_of_N 195) (String (ascii_of_N 159) "") in
  let self := {| target_contents := None;
                 template_contents := BytesIO ("st" ++ String Py.LF sharp_s ++ String Py.LF "");
                 template_meta := {| is_git_dirty := false; commit_url := "" |} |} in
  SortedUniqueLines.apply casefold self
  = Ok (BytesIO (sharp_s ++ String Py.LF "st" ++ String Py.LF "")).
Proof. reflexivity. Qed.

(** A template that is not UTF-8 (the byte 255) raises; the next-line
    character (code point 133, bytes 194 and 133) ends a line. *)
Example SortedUniqueLines_bytes_and_text :
  let meta := {| is_git_dirty := false; commit_url := "" |} in
  let on template :=
    SortedUniqueLines.apply Str.ascii_casefold
      {| target_contents := None; template_contents := BytesIO template;
         template_meta := meta |} in
  on (String (ascii_of_N 255) (String Py.LF "")) = Raise UnicodeDecodeError
  /\ on ("b" ++ String (ascii_of_N 194) (String (ascii_of_N 133) "a"))%string
     = Ok (BytesIO ("a" ++ String Py.LF "b" ++ String Py.LF "")).
Proof. split; reflexivity. Qed.

(** C6: [SortedUniqueLines] is commutative: swapping the template and
    the target gives the same result (the same output, or
    [UnicodeDecodeError] on both sides when an input is not UTF-8). It
    is idempotent: its output, given back as the target with the same
    template, comes out again. *)
Theorem SortedUniqueLines_commutative_idempotent (casefold : Str.str -> Str.str) :
  (forall (a b : BinaryIO) (meta meta' : TemplateMeta),
      SortedUniqueLines.apply casefold
        {| target_contents := Some b; template_contents := a; template_meta := meta |}
      = SortedUniqueLines.apply casefold
          {| target_contents := Some a; template_contents := b; template_meta := meta' |})
  /\ (forall (template first : BinaryIO) (meta meta' : TemplateMeta),
         SortedUniqueLines.apply casefold
           {| target_contents := None; template_contents := template;
              template_meta := meta |} = Ok first ->
         SortedUniqueLines.apply casefold
           {| target_contents := Some first; template_contents := template;
              template_meta := meta' |}
         = Ok first).
Proof.
  split.
  - intros a b meta meta'.
    destruct (Str.decode (read a)) as [ta|ea] eqn:Ea;
      destruct (Str.decode (read b)) as [tb|eb] eqn:Eb.
    + apply (SortedUniqueLinesFacts.apply_ext casefold _ _
               (Str.splitlines ta ++ Str.splitlines tb)
               (Str.splitlines tb ++ Str.splitlines ta)).
      * apply (SortedUniqueLinesFacts.read_lines_decoded _ ta (Some tb)); assumption.
      * apply (SortedUniqueLinesFacts.read_lines_decoded _ tb (Some ta)); assumption.
      * intros line _. rewrite !in_app_iff. tauto.
    + pose proof (decode_raises _ _ Eb) as ->.
      unfold SortedUniqueLines.apply, SortedUniqueLines.read_lines. simpl.
      now rewrite Ea, Eb.
    + pose proof (decode_raises _ _ Ea) as ->.
      unfold SortedUniqueLines.apply, SortedUniqueLines.read_lines. simpl.
      now rewrite Ea, Eb.
    + pose proof (decode_raises _ _ Ea) as ->.
      pose proof (decode_raises _ _ Eb) as ->.
      unfold SortedUniqueLines.apply, SortedUniqueLines.read_lines. simpl.
      now rewrite Ea, Eb.
  - intros template first meta meta' E.
    destruct (SortedUniqueLinesFacts.apply_inv casefold _ _ E)
      as (l & El & _ & _ & Ed & Es).
    pose proof El as El'.
    apply SortedUniqueLinesFacts.read_lines_inv in El'
      as (t & g & Et & Eg & ->). simpl in Et, Eg.
    destruct g as [g|]; [contradiction|]. rewrite app_nil_r in *.
    rewrite <- E.
    apply (SortedUniqueLinesFacts.apply_ext casefold _ _
             (Str.splitlines t ++ SortedUniqueLines.sorted_unique casefold (Str.splitlines t))
             (Str.splitlines t)).
    + rewrite <- Es.
      apply (SortedUniqueLinesFacts.read_lines_decoded _ t (Some _)); assumption.
    + exact El.
    + intros line Hne. rewrite in_app_iff, SortedUniqueLinesFacts.sorted_unique_in.
      tauto.
Qed.

Lemma SortedUniqueLines_commutative_idempotent_witness :
  let meta := {| is_git_dirty := false; commit_url := "" |} in
  let template := BytesIO ("b" ++ String Py.LF "a" ++ String Py.LF "") in
  let first := BytesIO ("a" ++ String Py.LF "b" ++ String Py.LF "") in
  SortedUniqueLines.apply Str.ascii_casefold
    {| target_contents := Some first; template_contents := template;
       template_meta := meta |}
  = Ok first.
Proof.
  intros meta template first.
  apply (proj2 (SortedUniqueLines_commutative_idempotent Str.ascii_casefold)
           template first meta meta).
  reflexivity.
Defined.

(** ** TemplateHash *)

Lemma has_char_app (c : ascii) (a b : string) :
  has_char c (a ++ b) = has_char c a || has_char c b.
Proof.
  induction a as [|x a IH]; simpl; [reflexivity|].
  now rewrite IH, orb_assoc.
Qed.

Lemma split_from_no_sep (sep : ascii) (s cur : string) :
  has_char sep cur = false ->
  Forall (fun piece => has_char sep piece = false) (split_from sep cur s).
Proof.
  revert cur; induction s as [|c s IH]; intros cur Hcur; simpl.
  - now repeat constructor.
  - destruct (Ascii.eqb c sep) eqn:E.
    + constructor; [exact Hcur|]. now apply IH.
    + apply IH. rewrite has_char_app, Hcur. simpl. now rewrite E.
Qed.

Lemma split_from_piece (sep : ascii) (piece rest cur : string) :
  has_char sep piece = false ->
  split_from sep cur (piece ++ String sep rest)
  = (cur ++ piece)%string :: split_from sep "" rest.
Proof.
  revert cur; induction piece as [|c piece IH]; intros cur Hp; simpl.
  - now rewrite Ascii.eqb_refl, string_app_nil_r.
  - simpl in Hp. apply orb_false_iff in Hp as [Hc Hp]. rewrite Hc.
    rewrite IH by assumption. now rewrite string_app_assoc.
Qed.

Lemma split_from_last (sep : ascii) (piece cur : string) :
  has_char sep piece = false ->
  split_from sep cur piece = [(cur ++ piece)%string].
Proof.
  revert cur; induction piece as [|c piece IH]; intros cur Hp; simpl.
  - now rewrite string_app_nil_r.
  - simpl in Hp. apply orb_false_iff in Hp as [Hc Hp]. rewrite Hc.
    rewrite IH by assumption. now rewrite string_app_assoc.
Qed.

(** [sep.join(pieces).split(sep)] gives the pieces back. *)
Lemma split_join (sep : ascii) (pieces : list string) :
  pieces <> [] ->
  Forall (fun piece => has_char sep piece = false) pieces ->
  split sep (join (String sep "") pieces) = pieces.
Proof.
  intros Hne Hall. unfold split, join.
  induction Hall as [|piece pieces Hp Hall IH]; [congruence|].
  destruct pieces as [|piece' pieces'].
  - simpl. now rewrite split_from_last.
  - change (String.concat (String sep "") (piece :: piece' :: pieces'))
      with (piece ++ String sep (String.concat (String sep "") (piece' :: pieces')))%string.
    rewrite split_from_piece by assumption. simpl (_ ++ _)%string.
    f_equal. apply IH. congruence.
Qed.

Lemma _maybe_add_noqa_no_LF (line : string) :
  has_char LF line = false ->
  has_char LF (TemplateHash._maybe_add_noqa line) = false.
Proof.
  intros H. unfold TemplateHash._maybe_add_noqa.
  destruct (Nat.leb _ _); [|exact H].
  rewrite has_char_app, H. reflexivity.
Qed.

(** The lines of the comment of [PythonTemplateHash] are the lines of the
    comment of [TemplateHash], each through [_maybe_add_noqa]. *)
Lemma python_comment_lines (self : Strategy) :
  split LF (TemplateHash.comment TemplateHash.Python self)
  = map TemplateHash._maybe_add_noqa
      (split LF (TemplateHash.base_comment TemplateHash.Python self)).
Proof.
  unfold TemplateHash.comment. apply split_join.
  - unfold split. destruct (TemplateHash.base_comment _ _) as [|c s]; simpl.
    + discriminate.
    + destruct (Ascii.eqb c LF); simpl; [discriminate|].
      intros E. apply map_eq_nil in E. revert E.
      generalize (String c ""). clear.
      induction s as [|c s IH]; intros cur; simpl; [discriminate|].
      destruct (Ascii.eqb c LF); [discriminate|apply IH].
  - apply Forall_map.
    eapply Forall_impl; [|apply (split_from_no_sep LF _ ""); reflexivity].
    intros line. apply _maybe_add_noqa_no_LF.
Qed.

Lemma base_comment_format (c : TemplateHash.cls) (self : Strategy) :
  TemplateHash.base_comment c self
  = (TemplateHash.line_comment_start c ++ " "
     ++ "Generated by https://github.com/rambler-digital-solutions/scaraplate"
     ++ String LF
          (TemplateHash.line_comment_start c ++ " "
           ++ (if is_git_dirty (template_meta self) then "From (dirty) " else "From ")
           ++ commit_url (template_meta self) ++ String LF ""))%string.
Proof.
  unfold TemplateHash.base_comment, join.
  destruct (is_git_dirty (template_meta self)); simpl;
    rewrite !string_app_assoc; simpl; reflexivity.
Qed.

(** C4: when the target is present, the text read from it contains the
    comment block of a clean template and the template is not dirty,
    [TemplateHash.apply] returns the target stream itself, rewound, with
    its bytes unchanged; when the template is dirty it returns the
    template content followed by a newline and the dirty comment block,
    whatever the target holds. *)
Theorem TemplateHash_apply_keep_or_dirty (c : TemplateHash.cls) (self : Strategy) :
  (forall target,
      target_contents self = Some target ->
      contains (TemplateHash.comment c self) (read target) = true ->
      is_git_dirty (template_meta self) = false ->
      TemplateHash.apply c self = seek target 0
      /\ getvalue (TemplateHash.apply c self) = getvalue target
      /\ tell (TemplateHash.apply c self) = 0)
  /\ (is_git_dirty (template_meta self) = true ->
      TemplateHash.apply c self
      = BytesIO (read (template_contents self)
                 ++ String LF (TemplateHash.comment c self))
      /\ TemplateHash.base_comment c self
         = (TemplateHash.line_comment_start c ++ " " ++ TemplateHash.generated_by
            ++ String LF
                 (TemplateHash.line_comment_start c ++ " From (dirty) "
                  ++ commit_url (template_meta self) ++ String LF ""))%string).
Proof.
  split.
  - intros target Ht Hin Hclean.
    unfold TemplateHash.apply, TemplateHash.keeps_target.
    rewrite Ht, Hin, Hclean. simpl. auto.
  - intros Hdirty. split.
    + unfold TemplateHash.apply, TemplateHash.keeps_target.
      rewrite Hdirty. simpl negb.
      destruct (target_contents self); rewrite ?andb_false_r; reflexivity.
    + rewrite base_comment_format, Hdirty. reflexivity.
Qed.

Lemma TemplateHash_apply_keep_or_dirty_witness :
  let target :=
    {| getvalue := "x = 2" ++ String LF "# Generated by https://github.com/rambler-digital-solutions/scaraplate"
                   ++ String LF "# From https://example.org/commit/1f" ++ String LF "";
       tell := 0 |} in
  let self clean :=
    {| target_contents := Some target;
       template_contents := BytesIO "x = 1";
       template_meta := {| is_git_dirty := negb clean;
                           commit_url := "https://example.org/commit/1f" |} |} in
  TemplateHash.apply TemplateHash.Base (self true) = target
  /\ getvalue (TemplateHash.apply TemplateHash.Base (self false))
     = ("x = 1" ++ String LF ""
        ++ "# Generated by https://github.com/rambler-digital-solutions/scaraplate"
        ++ String LF "# From (dirty) https://example.org/commit/1f" ++ String LF "")%string.
Proof.
  intros target self. split.
  - destruct (proj1 (TemplateHash_apply_keep_or_dirty TemplateHash.Base (self true))
                target eq_refl eq_refl eq_refl) as [E _].
    rewrite E. reflexivity.
  - destruct (proj2 (TemplateHash_apply_keep_or_dirty TemplateHash.Base (self false))
                eq_refl) as [E _].
    rewrite E. reflexivity.
Defined.

Lemma string_length_app (a b : string) :
  String.length (a ++ b) = String.length a + String.length b.
Proof. induction a as [|x a IH]; simpl; [reflexivity|now rewrite IH]. Qed.

Lemma string_app_inv_tail (a b c : string) : (a ++ c = b ++ c)%string -> a = b.
Proof.
  revert b; induction a as [|x a IH]; intros [|y b] H; simpl in H.
  - reflexivity.
  - apply (f_equal String.length) in H. simpl in H.
    rewrite string_length_app in H. lia.
  - apply (f_equal String.length) in H. simpl in H.
    rewrite string_length_app in H. lia.
  - injection H as -> H. f_equal. now apply IH.
Qed.

(** An output of [TemplateHash.apply] built from the template holds an
    empty line before the comment block exactly when the template
    content ends with a newline. *)
Lemma blank_line_before_comment (template before comment : string) :
  (template ++ String LF comment = before ++ String LF (String LF comment))%string
  <-> template = (before ++ String LF "")%string.
Proof.
  split.
  - intros H. apply (string_app_inv_tail _ _ (String LF comment)).
    rewrite H, string_app_assoc. reflexivity.
  - intros ->. rewrite string_app_assoc. reflexivity.
Qed.

(** C8, the case that the claim misses: a template content that does not
    end with a newline. The comment block follows the last line of the
    template content; no blank line separates them. *)
Lemma TemplateHash_no_blank_line :
  let self :=
    {| target_contents := None;
       template_contents := BytesIO "import sys";
       template_meta :=
         {| is_git_dirty := false;
            commit_url := "https://example.org/commit/1f" |} |} in
  let comment := TemplateHash.comment TemplateHash.Base self in
  let output := getvalue (TemplateHash.apply TemplateHash.Base self) in
  output = ("import sys" ++ String LF comment)%string
  /\ splitlines output
     = ["import sys";
        "# Generated by https://github.com/rambler-digital-solutions/scaraplate";
        "# From https://example.org/commit/1f"]
  /\ ~ (exists before,
          output = (before ++ String LF (String LF comment))%string).
Proof.
  intros self comment output.
  split; [reflexivity|]. split; [reflexivity|].
  intros [before H].
  change output with ("import sys" ++ String LF comment)%string in H.
  apply blank_line_before_comment in H.
  repeat (destruct before as [|? before]; [discriminate H|injection H as _ H]).
  destruct before; discriminate H.
Qed.

(** C8: when the target is not kept, [TemplateHash.apply] returns the
    template content, one newline and the comment block; a blank line
    separates the template content from the block exactly when the
    template content ends with a newline. The block is the line
    [<token> Generated by https://github.com/rambler-digital-solutions/scaraplate]
    and the line [<token> From {commit_url}], or [<token> From (dirty) {commit_url}]
    for a dirty template, each ended by a newline, where the token is
    [#] for [TemplateHash] and [PythonTemplateHash] and [//] for
    [GroovyTemplateHash]; in [PythonTemplateHash] each line of at least
    87 characters is followed by two spaces and [# noqa]. *)
Theorem TemplateHash_apply_comment_format (c : TemplateHash.cls) (self : Strategy) :
  (forall target,
      target_contents self = Some target ->
      contains (TemplateHash.comment c self) (read target)
      && negb (is_git_dirty (template_meta self)) = false) ->
  let token := TemplateHash.line_comment_start c in
  let line1 :=
    (token ++ " Generated by https://github.com/rambler-digital-solutions/scaraplate")%string in
  let line2 :=
    (token ++ (if is_git_dirty (template_meta self) then " From (dirty) " else " From ")
     ++ commit_url (template_meta self))%string in
  let noqa line :=
    if Nat.leb 87 (String.length line) then (line ++ "  # noqa")%string else line in
  TemplateHash.apply c self
  = BytesIO (read (template_contents self) ++ String LF (TemplateHash.comment c self))
  /\ (forall before,
         TemplateHash.apply c self
         = BytesIO (before ++ String LF (String LF (TemplateHash.comment c self)))
         <-> read (template_contents self) = (before ++ String LF "")%string)
  /\ token = match c with TemplateHash.Groovy => "//" | _ => "#" end
  /\ (c <> TemplateHash.Python ->
      TemplateHash.comment c self = (line1 ++ String LF (line2 ++ String LF ""))%string)
  /\ (c = TemplateHash.Python ->
      split LF (TemplateHash.comment c self)
      = map noqa (split LF (line1 ++ String LF (line2 ++ String LF "")))
      /\ (has_char LF (commit_url (template_meta self)) = false ->
          TemplateHash.comment c self
          = (noqa line1 ++ String LF (noqa line2 ++ String LF ""))%string)).
Proof.
  intros Hskip token line1 line2 noqa.
  assert (Hbase : TemplateHash.base_comment c self
                  = (line1 ++ String LF (line2 ++ String LF ""))%string).
  { rewrite base_comment_format. subst line1 line2 token.
    destruct (is_git_dirty (template_meta self)); simpl;
      rewrite !string_app_assoc; reflexivity. }
  assert (Happly : TemplateHash.apply c self
                   = BytesIO (read (template_contents self)
                              ++ String LF (TemplateHash.comment c self))).
  { unfold TemplateHash.apply.
    destruct (target_contents self) as [target|]; [|reflexivity].
    unfold TemplateHash.keeps_target. now rewrite (Hskip target eq_refl). }
  split; [exact Happly|split; [|split; [|split]]].
  - intros before. rewrite Happly, <- blank_line_before_comment.
    unfold BytesIO. split; [intros [= E]; exact E|intros ->; reflexivity].
  - now destruct c.
  - intros Hc. rewrite <- Hbase. now destruct c.
  - intros ->. split.
    + rewrite python_comment_lines, Hbase. reflexivity.
    + intros Hurl. unfold TemplateHash.comment. rewrite Hbase.
      assert (H1 : has_char LF line1 = false) by reflexivity.
      assert (H2 : has_char LF line2 = false).
      { subst line2. rewrite !has_char_app, Hurl.
        now destruct (is_git_dirty (template_meta self)). }
      unfold split. rewrite (split_from_piece LF line1 _ "" H1).
      rewrite (split_from_piece LF line2 _ "" H2).
      reflexivity.
Qed.

Lemma TemplateHash_apply_comment_format_witness :
  let self :=
    {| target_contents := Some (BytesIO "import os");
       template_contents := BytesIO ("import sys" ++ String LF "");
       template_meta :=
         {| is_git_dirty := false;
            commit_url := "https://github.com/rambler-digital-solutions/scaraplate-example-template/commit/1111111111111111111111111111111111111111" |} |} in
  getvalue (TemplateHash.apply TemplateHash.Python self)
  = ("import sys" ++ String LF "" ++ String LF ""
     ++ "# Generated by https://github.com/rambler-digital-solutions/scaraplate"
     ++ String LF
          "# From https://github.com/rambler-digital-solutions/scaraplate-example-template/commit/1111111111111111111111111111111111111111  # noqa"
     ++ String LF "")%string.
Proof.
  intros self.
  assert (Hskip : forall target,
             target_contents self = Some target ->
             contains (TemplateHash.comment TemplateHash.Python self) (read target)
             && negb (is_git_dirty (template_meta self)) = false).
  { intros target [= <-]. vm_compute. reflexivity. }
  destruct (TemplateHash_apply_comment_format TemplateHash.Python self Hskip)
    as (_ & Hblank & _).
  rewrite (proj2 (Hblank "import sys") eq_refl). vm_compute. reflexivity.
Defined.

(** ** Dictionaries and parsers *)

Section DictFacts.
Context {V : Type}.
Implicit Types (d : dict V) (k : string) (v : V).

Lemma dict_get_set_same d k v : dict_get (dict_set d k v) k = Some v.
Proof.
  induction d as [|[k' v'] d IH]; simpl.
  - now rewrite String.eqb_refl.
  - destruct (String.eqb k' k) eqn:E; simpl; now rewrite E.
Qed.

Lemma dict_get_set_other d k k' v :
  k' <> k -> dict_get (dict_set d k v) k' = dict_get d k'.
Proof.
  intros Hne. induction d as [|[k0 v0] d IH]; simpl.
  - apply String.eqb_neq in Hne. rewrite String.eqb_sym in Hne. now rewrite Hne.
  - destruct (String.eqb k0 k) eqn:E; simpl.
    + apply String.eqb_eq in E; subst k0.
      apply String.eqb_neq in Hne. rewrite String.eqb_sym in Hne. now rewrite Hne.
    + now rewrite IH.
Qed.

Lemma dict_get_set d k k' v :
  dict_get (dict_set d k v) k'
  = if String.eqb k' k then Some v else dict_get d k'.
Proof.
  destruct (String.eqb_spec k' k) as [->|Hne].
  - apply dict_get_set_same.
  - now apply dict_get_set_other.
Qed.

Lemma dict_get_app d d' k :
  dict_get (d ++ d') k
  = match dict_get d k with Some v => Some v | None => dict_get d' k end.
Proof.
  induction d as [|[k0 v0] d IH]; simpl; [reflexivity|].
  now destruct (String.eqb k0 k).
Qed.

Lemma dict_get_in_keys d k : In k (keys d) <-> dict_get d k <> None.
Proof.
  induction d as [|[k0 v0] d IH]; simpl; [tauto|].
  destruct (String.eqb_spec k0 k) as [->|Hne].
  - split; [discriminate|auto].
  - rewrite <- IH. tauto.
Qed.
End DictFacts.

Lemma has_section_true (parser : ConfigParser.t) (section : string) :
  ConfigParser.has_section parser section = true
  <-> dict_get parser section <> None.
Proof.
  unfold ConfigParser.has_section.
  destruct (dict_get parser section); split; congruence.
Qed.

Lemma get_lookup (parser : ConfigParser.t) (section key : string) :
  match ConfigParser.lookup parser section key with
  | Some v => ConfigParser.get parser section key = Ok v
  | None => exists k, ConfigParser.get parser section key = Raise (KeyError k)
  end.
Proof.
  unfold ConfigParser.lookup, ConfigParser.get, getitem.
  destruct (dict_get parser section) as [d|]; simpl; [|eauto].
  destruct (dict_get d key); eauto.
Qed.

Lemma dict_get_ensure_section (parser : ConfigParser.t) (section s : string) :
  dict_get (_ensure_section parser section) s
  = match dict_get parser s with
    | Some d => Some d
    | None => if String.eqb section s then Some [] else None
    end.
Proof.
  unfold _ensure_section, ConfigParser.has_section, ConfigParser.add_section.
  destruct (dict_get parser section) eqn:E; simpl.
  - destruct (dict_get parser s) eqn:E'; [reflexivity|].
    destruct (String.eqb_spec section s) as [->|]; congruence.
  - rewrite dict_get_app. simpl. reflexivity.
Qed.

(** [_ensure_section(parser, section)] followed by
    [parser[section][key] = value] does not raise and writes that one
    value. *)
Lemma ensure_set (parser : ConfigParser.t) (section key value : string) :
  exists parser',
    ConfigParser.set (_ensure_section parser section) section key value = Ok parser'
    /\ (forall s k,
           ConfigParser.lookup parser' s k
           = if String.eqb s section && String.eqb k key
             then Some value
             else ConfigParser.lookup parser s k)
    /\ (forall s, s <> section -> dict_get parser' s = dict_get parser s)
    /\ (forall s,
           ConfigParser.has_section parser' s
           = ConfigParser.has_section parser s || String.eqb s section).
Proof.
  unfold ConfigParser.set, getitem.
  rewrite dict_get_ensure_section, String.eqb_refl.
  set (d := match dict_get parser section with Some d => d | None => [] end).
  assert (Hd : match dict_get parser section with
               | Some d => Some d | None => Some [] end = Some d)
    by (subst d; now destruct (dict_get parser section)).
  rewrite Hd. simpl. eexists. split; [reflexivity|].
  split; [|split].
  - intros s k. unfold ConfigParser.lookup. rewrite dict_get_set.
    destruct (String.eqb_spec s section) as [->|Hne]; simpl.
    + rewrite dict_get_set. destruct (String.eqb k key); [reflexivity|].
      subst d. now destruct (dict_get parser section).
    + rewrite dict_get_ensure_section.
      destruct (dict_get parser s); [reflexivity|].
      destruct (String.eqb_spec section s); congruence.
  - intros s Hne. rewrite dict_get_set_other by assumption.
    rewrite dict_get_ensure_section.
    destruct (dict_get parser s); [reflexivity|].
    destruct (String.eqb_spec section s); congruence.
  - intros s. unfold ConfigParser.has_section. rewrite dict_get_set.
    destruct (String.eqb_spec s section) as [->|Hne].
    + now rewrite orb_true_r.
    + rewrite orb_false_r, dict_get_ensure_section.
      destruct (dict_get parser s); [reflexivity|].
      destruct (String.eqb_spec section s); congruence.
Qed.

(** [_maybe_preserve_key] does not raise; it writes the value of the
    target, if there is one, and nothing else. *)
Lemma _maybe_preserve_key_spec (template target : ConfigParser.t)
  (section key : string) :
  exists parser',
    _maybe_preserve_key template target section key = Ok parser'
    /\ (forall s k,
           ConfigParser.lookup parser' s k
           = if String.eqb s section && String.eqb k key
             then match ConfigParser.lookup target section key with
                  | Some v => Some v
                  | None => ConfigParser.lookup template section key
                  end
             else ConfigParser.lookup template s k)
    /\ (forall s, s <> section -> dict_get parser' s = dict_get template s)
    /\ (forall s,
           ConfigParser.has_section parser' s
           = ConfigParser.has_section template s
             || (String.eqb s section
                 && match ConfigParser.lookup target section key with
                    | Some _ => true
                    | None => false
                    end)).
Proof.
  unfold _maybe_preserve_key.
  pose proof (get_lookup target section key) as Hget.
  destruct (ConfigParser.lookup target section key) as [v|].
  - rewrite Hget.
    destruct (ensure_set template section key v) as (p & E & Hl & Hs & Hh).
    exists p. repeat split; auto.
    intros s. rewrite Hh. now rewrite andb_true_r.
  - destruct Hget as [k' ->]. exists template. repeat split; auto.
    + intros s k.
      destruct (String.eqb_spec s section) as [->|]; simpl; [|reflexivity].
      destruct (String.eqb_spec k key) as [->|]; reflexivity.
    + intros s. now rewrite andb_false_r, orb_false_r.
Qed.

(** ** PylintrcMerge *)

Lemma PylintrcMerge_merge_ok (template : ConfigParser.t)
  (target : option ConfigParser.t) :
  exists merged, PylintrcMerge.merge template target = Ok merged.
Proof.
  destruct target as [target|]; simpl; [|eauto].
  destruct (_maybe_preserve_key_spec template target "TYPECHECK" "ignored-modules")
    as (p1 & E1 & _).
  rewrite E1. simpl.
  destruct (_maybe_preserve_key_spec p1 target "TYPECHECK" "ignored-classes")
    as (p2 & E2 & _).
  eauto.
Qed.

(** C7: [PylintrcMerge] does not raise on parsed documents. In the
    result, the keys [ignored-modules] and [ignored-classes] of the
    section [TYPECHECK] hold the values of the target when the target has
    them, and the values of the template otherwise; the section is
    created when the target gives a value and the template lacks the
    section; every other section and every other key is as in the
    template. *)
Theorem PylintrcMerge_merge_frame (template : ConfigParser.t)
  (target : option ConfigParser.t) :
  let target_value s k :=
    match target with
    | Some target => ConfigParser.lookup target s k
    | None => None
    end in
  let has_value s k :=
    match target_value s k with Some _ => true | None => false end in
  exists merged,
    PylintrcMerge.merge template target = Ok merged
    /\ (forall s k,
           ConfigParser.lookup merged s k
           = if String.eqb s "TYPECHECK"
                && (String.eqb k "ignored-modules" || String.eqb k "ignored-classes")
             then match target_value s k with
                  | Some v => Some v
                  | None => ConfigParser.lookup template s k
                  end
             else ConfigParser.lookup template s k)
    /\ (forall s, s <> "TYPECHECK" -> dict_get merged s = dict_get template s)
    /\ (forall s,
           ConfigParser.has_section merged s
           = ConfigParser.has_section template s
             || (String.eqb s "TYPECHECK"
                 && (has_value "TYPECHECK" "ignored-modules"
                     || has_value "TYPECHECK" "ignored-classes"))).
Proof.
  intros target_value has_value. subst has_value target_value.
  destruct target as [target|]; simpl.
  - destruct (_maybe_preserve_key_spec template target "TYPECHECK" "ignored-modules")
      as (p1 & E1 & L1 & S1 & H1).
    rewrite E1. simpl.
    destruct (_maybe_preserve_key_spec p1 target "TYPECHECK" "ignored-classes")
      as (p2 & E2 & L2 & S2 & H2).
    exists p2. split; [exact E2|]. split; [|split].
    + intros s k. rewrite L2, !L1.
      destruct (String.eqb_spec s "TYPECHECK") as [->|]; simpl; [|reflexivity].
      destruct (String.eqb_spec k "ignored-classes") as [->|]; simpl.
      * reflexivity.
      * rewrite orb_false_r.
        destruct (String.eqb_spec k "ignored-modules") as [->|]; reflexivity.
    + intros s Hne. now rewrite S2, S1.
    + intros s. rewrite H2, H1.
      destruct (String.eqb s "TYPECHECK"); simpl.
      * now rewrite <- orb_assoc.
      * now rewrite !orb_false_r.
  - exists template. split; [reflexivity|]. split; [|split].
    + intros s k. now destruct (_ && _).
    + reflexivity.
    + intros s. now rewrite andb_false_r, orb_false_r.
Qed.

(** ** SetupcfgMerge: the merge of the requirements *)

Lemma count_occ_filter {A : Type} (dec : forall a b : A, {a = b} + {a <> b})
  (f : A -> bool) (l : list A) (x : A) :
  count_occ dec (filter f l) x = if f x then count_occ dec l x else 0.
Proof.
  induction l as [|y l IH]; simpl; [now destruct (f x)|].
  destruct (f y) eqn:Ey; simpl; destruct (dec y x) as [->|]; rewrite IH;
    try reflexivity.
  - now rewrite Ey.
  - now rewrite Ey.
Qed.

Lemma existsb_eqb_in (x : string) (l : list string) :
  existsb (String.eqb x) l = true <-> In x l.
Proof.
  rewrite existsb_exists. split.
  - intros (y & Hy & E). apply String.eqb_eq in E. now subst.
  - intros Hx. exists x. split; [exact Hx|apply String.eqb_refl].
Qed.

Lemma existsb_eqb_set (x : string) (l : list string) :
  existsb (String.eqb x) (set l) = existsb (String.eqb x) l.
Proof.
  apply eq_true_iff_eq. rewrite !existsb_eqb_in. apply set_in.
Qed.

(** A loop that appends the elements that pass a test is a filter. *)
Lemma fold_left_append_filter {A : Type} (f : A -> bool) (l wanted : list A) :
  fold_left (fun wanted x => if f x then wanted ++ [x] else wanted) l wanted
  = wanted ++ filter f l.
Proof.
  revert wanted; induction l as [|x l IH]; intros wanted; simpl.
  - now rewrite app_nil_r.
  - rewrite IH. destruct (f x); [|reflexivity].
    now rewrite <- app_assoc.
Qed.

Section MergeRequirements.
Context {R : Requirements}.
Import SetupcfgMerge.

(** The specifiers of the template that the merge appends: those whose
    normalized name is not the normalized name of a specifier of the
    target. *)
Local Abbreviation is_new target_requirements :=
  (fun requirement =>
     negb (existsb (String.eqb (normalize_requirement requirement))
             (map normalize_requirement target_requirements))).

Lemma wanted_requirements_eq (template_requirements target_requirements : list string) :
  wanted_requirements template_requirements target_requirements
  = sorted casefold String.leb
      (target_requirements
       ++ filter (is_new target_requirements) template_requirements).
Proof.
  unfold wanted_requirements. f_equal.
  rewrite (fold_left_append_filter
             (fun r => negb (existsb (String.eqb (normalize_requirement r))
                               (set (map normalize_requirement target_requirements))))).
  f_equal. apply filter_ext. intros r. now rewrite existsb_eqb_set.
Qed.

Lemma wanted_requirements_perm (template_requirements target_requirements : list string) :
  Permutation
    (wanted_requirements template_requirements target_requirements)
    (target_requirements
     ++ filter (is_new target_requirements) template_requirements).
Proof. rewrite wanted_requirements_eq. apply sorted_perm. Qed.

Lemma wanted_requirements_sorted (template_requirements target_requirements : list string) :
  StronglySorted (key_le casefold String.leb)
    (wanted_requirements template_requirements target_requirements).
Proof.
  rewrite wanted_requirements_eq.
  apply sorted_sorted; [apply String.leb_total|apply string_leb_trans].
Qed.

Lemma wanted_requirements_count (template_requirements target_requirements : list string)
  (r : string) :
  count_occ string_dec
    (wanted_requirements template_requirements target_requirements) r
  = count_occ string_dec target_requirements r
    + (if is_new target_requirements r
       then count_occ string_dec template_requirements r
       else 0).
Proof.
  pose proof (proj1 (Permutation_count_occ string_dec _ _)
                (wanted_requirements_perm template_requirements target_requirements)
                r) as E.
  rewrite E, count_occ_app, count_occ_filter. reflexivity.
Qed.

Lemma _parse_requirements_ok (parser : ConfigParser.t) (section key : string) :
  _parse_requirements parser section key
  = Ok match ConfigParser.lookup parser section key with
       | Some requirements => parse_setupcfg_requirements requirements
       | None => []
       end.
Proof.
  unfold _parse_requirements.
  pose proof (get_lookup parser section key) as Hget.
  destruct (ConfigParser.lookup parser section key).
  - now rewrite Hget.
  - now destruct Hget as [k ->].
Qed.

(** [_merge_requirements] does not raise; it writes the merged list and
    nothing else. *)
Lemma _merge_requirements_spec (template : ConfigParser.t)
  (target : option ConfigParser.t) (section key : string) :
  let requirements_of parser :=
    match ConfigParser.lookup parser section key with
    | Some requirements => parse_setupcfg_requirements requirements
    | None => []
    end in
  let merged :=
    wanted_requirements (requirements_of template)
      match target with Some target => requirements_of target | None => [] end in
  exists parser',
    _merge_requirements template target section key = Ok parser'
    /\ (forall s k,
           ConfigParser.lookup parser' s k
           = if String.eqb s section && String.eqb k key
             then Some (dump_setupcfg_requirements merged)
             else ConfigParser.lookup template s k)
    /\ (forall s, s <> section -> dict_get parser' s = dict_get template s)
    /\ (forall s,
           ConfigParser.has_section parser' s
           = ConfigParser.has_section template s || String.eqb s section).
Proof.
  intros requirements_of merged. unfold _merge_requirements.
  rewrite _parse_requirements_ok. simpl.
  assert (E : match target with
              | Some target_parser => _parse_requirements target_parser section key
              | None => Ok []
              end
              = Ok match target with
                   | Some target => requirements_of target
                   | None => []
                   end).
  { destruct target; [apply _parse_requirements_ok|reflexivity]. }
  rewrite E. simpl. apply ensure_set.
Qed.
End MergeRequirements.

Lemma Permutation_filter {A : Type} (f : A -> bool) (l l' : list A) :
  Permutation l l' -> Permutation (filter f l) (filter f l').
Proof.
  induction 1 as [|x l l' Hp IH|x y l|l l' l'' Hp1 IH1 Hp2 IH2]; simpl.
  - constructor.
  - destruct (f x); [now constructor|exact IH].
  - destruct (f x), (f y); try reflexivity. apply perm_swap.
  - now transitivity (filter f l').
Qed.

(** C1: [_merge_requirements] does not raise and writes, as the value of
    the key, the dump of the merged list. The name of a specifier is its
    [requirement_name] in lower case. The merged list is the list of the
    target followed by the specifiers of the template whose name is not
    the name of a specifier of the target, sorted by the casefolded
    specifier. So every specifier of the target is in the merged list, and
    a specifier whose name occurs in the target occurs in the merged list
    exactly as often as in the target: the template adds none. *)
Theorem SetupcfgMerge_merge_requirements {R : Requirements}
  (template : ConfigParser.t) (target : option ConfigParser.t)
  (section key : string) :
  let requirements_of parser :=
    match ConfigParser.lookup parser section key with
    | Some requirements => parse_setupcfg_requirements requirements
    | None => []
    end in
  let template_requirements := requirements_of template in
  let target_requirements :=
    match target with Some target => requirements_of target | None => [] end in
  let name requirement := lower (requirement_name requirement) in
  let is_new requirement :=
    negb (existsb (String.eqb (name requirement)) (map name target_requirements)) in
  exists merged parser',
    SetupcfgMerge._merge_requirements template target section key = Ok parser'
    /\ ConfigParser.lookup parser' section key
       = Some (dump_setupcfg_requirements merged)
    /\ merged
       = sorted casefold String.leb
           (target_requirements ++ filter is_new template_requirements)
    /\ Permutation merged
         (target_requirements ++ filter is_new template_requirements)
    /\ StronglySorted (fun a b => String.leb (casefold a) (casefold b) = true) merged
    /\ (forall r, In r target_requirements -> In r merged)
    /\ (forall r,
           In (name r) (map name target_requirements) ->
           count_occ string_dec merged r = count_occ string_dec target_requirements r).
Proof.
  intros requirements_of template_requirements target_requirements name is_new.
  destruct (_merge_requirements_spec template target section key)
    as (parser' & E & Hl & _).
  exists (SetupcfgMerge.wanted_requirements template_requirements target_requirements),
    parser'.
  split; [exact E|]. split.
  { rewrite Hl, !String.eqb_refl. reflexivity. }
  split; [apply wanted_requirements_eq|].
  split; [apply wanted_requirements_perm|].
  split; [apply wanted_requirements_sorted|].
  split.
  - intros r Hr.
    apply (Permutation_in _ (Permutation_sym (wanted_requirements_perm _ _))).
    apply in_or_app. now left.
  - intros r Hr. rewrite wanted_requirements_count.
    apply existsb_eqb_in in Hr.
    change (SetupcfgMerge.normalize_requirement r) with (name r).
    change (map SetupcfgMerge.normalize_requirement target_requirements)
      with (map name target_requirements).
    rewrite Hr. simpl. lia.
Qed.

Lemma SetupcfgMerge_merge_requirements_witness :
  let template :=
    [("options", [("install_requires", ("foo>=1.0" ++ String LF "bar==2.0")%string)])] in
  let target := [("options", [("install_requires", "Foo==1.5")])] in
  exists parser',
    SetupcfgMerge._merge_requirements (R := SpecRequirements.requirements)
      template (Some target) "options" "install_requires" = Ok parser'
    /\ ConfigParser.lookup parser' "options" "install_requires"
       = Some (SpecRequirements.dump_setupcfg_requirements ["bar==2.0"; "Foo==1.5"]).
Proof.
  intros template target.
  destruct (SetupcfgMerge_merge_requirements (R := SpecRequirements.requirements)
              template (Some target) "options" "install_requires")
    as (merged & parser' & E & Hl & Hm & _).
  exists parser'. split; [exact E|].
  rewrite Hl, Hm. reflexivity.
Defined.

(** The example of the specification: the template requires [foo>=1.0]
    and [bar==2.0], the target requires [foo==1.5]. *)
Example merge_requirements_example :
  let template := [("options", [("install_requires", ("foo>=1.0" ++ String LF "bar==2.0")%string)])] in
  let target := [("options", [("install_requires", "foo==1.5")])] in
  SetupcfgMerge._merge_requirements (R := SpecRequirements.requirements)
    template (Some target) "options" "install_requires"
  = Ok [("options",
         [("install_requires", (String LF "bar==2.0" ++ String LF "foo==1.5")%string)])].
Proof. reflexivity. Qed.

(** C9: the names of the specifiers of the template are compared with
    the names of the target only. When the template lists two specifiers
    of one normalized name and no specifier of the target has that name,
    both are in the merged list, which so holds at least two specifiers
    of that name. *)
Theorem SetupcfgMerge_template_duplicates_kept {R : Requirements}
  (before between after target_requirements : list string) (r1 r2 : string) :
  let name := SetupcfgMerge.normalize_requirement in
  let template_requirements := before ++ r1 :: between ++ r2 :: after in
  let merged :=
    SetupcfgMerge.wanted_requirements template_requirements target_requirements in
  name r1 = name r2 ->
  ~ In (name r1) (map name target_requirements) ->
  In r1 merged /\ In r2 merged
  /\ 2 <= List.length (filter (fun r => String.eqb (name r) (name r1)) merged).
Proof.
  intros name template_requirements merged Hname Hnew.
  assert (Hnew1 : negb (existsb (String.eqb (name r1)) (map name target_requirements))
                  = true).
  { apply negb_true_iff. apply not_true_is_false.
    now rewrite existsb_eqb_in. }
  assert (Hnew2 : negb (existsb (String.eqb (name r2)) (map name target_requirements))
                  = true) by now rewrite <- Hname.
  pose proof (wanted_requirements_perm template_requirements target_requirements)
    as Hperm. fold merged in Hperm.
  assert (Hin : forall r,
             In r template_requirements ->
             negb (existsb (String.eqb (name r)) (map name target_requirements)) = true ->
             In r merged).
  { intros r Hr Hn. apply (Permutation_in _ (Permutation_sym Hperm)).
    apply in_or_app. right. apply filter_In. now split. }
  split; [|split].
  - apply Hin; [|exact Hnew1]. subst template_requirements.
    apply in_or_app. right. now left.
  - apply Hin; [|exact Hnew2]. subst template_requirements.
    apply in_or_app. right. right. apply in_or_app. right. now left.
  - rewrite (Permutation_length
               (Permutation_filter (fun r => String.eqb (name r) (name r1)) _ _ Hperm)).
    subst template_requirements.
    rewrite !filter_app. simpl. fold name. rewrite Hnew1. simpl.
    rewrite String.eqb_refl. rewrite !filter_app. simpl. fold name.
    rewrite Hnew2. simpl. rewrite <- Hname, String.eqb_refl.
    rewrite !length_app. simpl. rewrite !length_app. simpl. lia.
Qed.

Lemma SetupcfgMerge_template_duplicates_kept_witness :
  let merged :=
    SetupcfgMerge.wanted_requirements (R := SpecRequirements.requirements)
      ["foo>=1.0"; "Foo==2.0"] ["bar==0.1"] in
  merged = ["bar==0.1"; "Foo==2.0"; "foo>=1.0"]
  /\ In "foo>=1.0" merged /\ In "Foo==2.0" merged.
Proof.
  intros merged. split; [reflexivity|].
  destruct (SetupcfgMerge_template_duplicates_kept (R := SpecRequirements.requirements)
              [] [] [] ["bar==0.1"] "foo>=1.0" "Foo==2.0") as (H1 & H2 & _).
  - reflexivity.
  - simpl. intros [E|[]]. discriminate E.
  - split; [exact H1|exact H2].
Defined.

(** ** SetupcfgMerge: the preservation of sections *)

Lemma clash_match_atoms (a1 a2 : list Re.atom) (s : string) :
  Re.clash a1 a2 = true ->
  Re.match_atoms a1 s <> None -> Re.match_atoms a2 s = None.
Proof.
  revert a2 s; induction a1 as [|x a1 IH]; intros a2 s Hclash Hm.
  - discriminate.
  - destruct a2 as [|y a2]; [now destruct x|].
    destruct s as [|c s]; [reflexivity|]. simpl in *.
    destruct (Re.atom_matches x c) eqn:Ex; [|congruence].
    destruct (Re.atom_matches y c) eqn:Ey; [|reflexivity].
    apply (IH a2 s); [|exact Hm].
    destruct x as [c1|], y as [c2|]; try exact Hclash.
    simpl in Ex, Ey. apply Ascii.eqb_eq in Ex, Ey. subst c1 c2.
    now rewrite Ascii.eqb_refl in Hclash.
Qed.

Lemma clash_matches (p1 p2 : Re.Pattern) (s : string) :
  Re.clash (Re.atoms p1) (Re.atoms p2) = true ->
  Re.matches p1 s = true -> Re.matches p2 s = false.
Proof.
  intros Hclash Hm. unfold Re.matches in *.
  rewrite (clash_match_atoms _ _ s Hclash); [reflexivity|].
  now destruct (Re.match_atoms (Re.atoms p1) s).
Qed.

Lemma dict_set_keys_NoDup {V : Type} (d : dict V) (k : string) (v : V) :
  NoDup (keys d) -> NoDup (keys (dict_set d k v)).
Proof.
  unfold keys. induction d as [|[k0 v0] d IH]; simpl; intros Hd.
  - repeat constructor. auto.
  - inversion Hd as [|? ? Hnotin Hd']; subst.
    destruct (String.eqb_spec k0 k) as [->|Hne]; simpl.
    + now constructor.
    + constructor; [|now apply IH].
      intros Hin. apply Hnotin.
      change (map fst (dict_set d k v)) with (keys (dict_set d k v)) in Hin.
      apply dict_get_in_keys in Hin. rewrite dict_get_set_other in Hin by auto.
      now apply dict_get_in_keys.
Qed.

(** What [restore_keys] leaves under each key. *)
Lemma restore_keys_get (ignore_keys_pattern : Re.Pattern)
  (template_section section_data : dict string) (k : string) :
  NoDup (keys template_section) ->
  dict_get (SetupcfgMerge.restore_keys ignore_keys_pattern template_section section_data) k
  = if Re.matches ignore_keys_pattern k
    then match dict_get template_section k with
         | Some v => Some v
         | None => dict_get section_data k
         end
    else dict_get section_data k.
Proof.
  unfold SetupcfgMerge.restore_keys.
  revert section_data.
  induction template_section as [|[k0 v0] d IH]; intros section_data Hd; simpl.
  - now destruct (Re.matches _ _).
  - inversion Hd as [|? ? Hnotin Hd']; subst.
    rewrite IH by assumption.
    destruct (String.eqb_spec k0 k) as [->|Hne].
    + assert (E : dict_get d k = None).
      { destruct (dict_get d k) eqn:E; [|reflexivity].
        exfalso. apply Hnotin. apply dict_get_in_keys. congruence. }
      rewrite E. destruct (Re.matches ignore_keys_pattern k); [|reflexivity].
      apply dict_get_set_same.
    + destruct (Re.matches ignore_keys_pattern k0);
        [rewrite dict_get_set_other by auto|]; reflexivity.
Qed.

(** A section that the pattern does not match is not touched. *)
Lemma _maybe_preserve_sections_frame (template target merged : ConfigParser.t)
  (sections_pattern : Re.Pattern) (ignore_keys_pattern : option Re.Pattern)
  (s : string) :
  SetupcfgMerge._maybe_preserve_sections template target sections_pattern
    ignore_keys_pattern = Ok merged ->
  Re.matches sections_pattern s = false ->
  dict_get merged s = dict_get template s.
Proof.
  unfold SetupcfgMerge._maybe_preserve_sections.
  generalize (ConfigParser.sections target) as l.
  intros l; revert template; induction l as [|x l IH]; intros template; simpl.
  - now intros [= ->].
  - unfold SetupcfgMerge.preserve_section at 1.
    destruct (Re.matches sections_pattern x) eqn:Ex; simpl; [|apply IH].
    destruct (getitem target x) as [data|]; simpl; [|discriminate].
    intros Hrun Hs.
    assert (Hne : s <> x) by (intros ->; congruence).
    destruct ignore_keys_pattern as [ign|]; simpl in Hrun.
    + destruct (getitem template x) as [tsec|]; simpl in Hrun; [|discriminate].
      rewrite (IH _ Hrun Hs). unfold ConfigParser.set_section.
      now apply dict_get_set_other.
    + rewrite (IH _ Hrun Hs). unfold ConfigParser.set_section.
      now apply dict_get_set_other.
Qed.

(** Without keys to ignore, [_maybe_preserve_sections] does not raise and
    copies the sections of the target that the pattern matches. *)
Lemma _maybe_preserve_sections_copy (template target : ConfigParser.t)
  (sections_pattern : Re.Pattern) :
  exists merged,
    SetupcfgMerge._maybe_preserve_sections template target sections_pattern None
    = Ok merged
    /\ forall s,
        dict_get merged s
        = if Re.matches sections_pattern s
          then match dict_get target s with
               | Some d => Some d
               | None => dict_get template s
               end
          else dict_get template s.
Proof.
  unfold SetupcfgMerge._maybe_preserve_sections, ConfigParser.sections.
  assert (Hgen : forall l template,
             (forall x, In x l -> dict_get target x <> None) ->
             exists merged,
               for_each l (SetupcfgMerge.preserve_section target sections_pattern None)
                 template = Ok merged
               /\ forall s,
                   dict_get merged s
                   = if Re.matches sections_pattern s && existsb (String.eqb s) l
                     then dict_get target s
                     else dict_get template s).
  { induction l as [|x l IH]; intros tpl Hl; simpl.
    - exists tpl. split; [reflexivity|]. intros s. now rewrite andb_false_r.
    - unfold SetupcfgMerge.preserve_section at 1. unfold getitem.
      destruct (dict_get target x) as [data|] eqn:Ex;
        [|exfalso; apply (Hl x); [now left|exact Ex]].
      destruct (Re.matches sections_pattern x) eqn:Em; simpl.
      + destruct (IH (ConfigParser.set_section tpl x data)) as (m & E & Hm);
          [intros y Hy; apply Hl; now right|].
        exists m. split; [exact E|]. intros s. rewrite Hm.
        unfold ConfigParser.set_section. rewrite dict_get_set.
        destruct (String.eqb_spec s x) as [->|Hne]; simpl.
        * rewrite Em. simpl. rewrite Ex. now destruct (existsb _ _).
        * reflexivity.
      + destruct (IH tpl) as (m & E & Hm); [intros y Hy; apply Hl; now right|].
        exists m. split; [exact E|]. intros s. rewrite Hm.
        destruct (String.eqb_spec s x) as [->|Hne]; simpl; [|reflexivity].
        now rewrite Em. }
  destruct (Hgen (keys target) template) as (m & E & Hm).
  { intros x Hx. now apply dict_get_in_keys. }
  exists m. split; [exact E|]. intros s. rewrite Hm.
  destruct (Re.matches sections_pattern s); simpl; [|reflexivity].
  destruct (existsb (String.eqb s) (keys target)) eqn:Ein.
  - apply existsb_eqb_in in Ein. apply dict_get_in_keys in Ein.
    now destruct (dict_get target s).
  - assert (Hnone : dict_get target s = None).
    { destruct (dict_get target s) eqn:E'; [|reflexivity].
      assert (Hin : In s (keys target)) by (apply dict_get_in_keys; congruence).
      apply existsb_eqb_in in Hin. congruence. }
    now rewrite Hnone.
Qed.

Lemma distinct_NoDup (l : list string) :
  ConfigParser.distinct l = true -> NoDup l.
Proof.
  induction l as [|x l IH]; simpl; [constructor|].
  intros [Hx Hl]%andb_true_iff. constructor; [|now apply IH].
  apply negb_true_iff in Hx. intros Hin.
  apply existsb_eqb_in in Hin. congruence.
Qed.

Lemma dict_get_in {V : Type} (d : dict V) (k : string) (v : V) :
  dict_get d k = Some v -> In (k, v) d.
Proof.
  induction d as [|[k0 v0] d IH]; simpl; [discriminate|].
  destruct (String.eqb_spec k0 k) as [->|Hne].
  - intros [= ->]. now left.
  - intros Hget. right. now apply IH.
Qed.

Lemma wf_sections (parser : ConfigParser.t) :
  ConfigParser.wf parser = true -> NoDup (ConfigParser.sections parser).
Proof. intros [H _]%andb_true_iff. now apply distinct_NoDup. Qed.

Lemma wf_keys (parser : ConfigParser.t) (section : string) (d : dict string) :
  ConfigParser.wf parser = true ->
  dict_get parser section = Some d -> NoDup (keys d).
Proof.
  intros [_ H]%andb_true_iff Hget. rewrite forallb_forall in H.
  apply distinct_NoDup. apply (H (section, d)). now apply dict_get_in.
Qed.

(** With keys to ignore, [_maybe_preserve_sections] does not raise when
    the template has every section of the target that the pattern
    matches; it copies these sections and restores the ignored keys. *)
Lemma _maybe_preserve_sections_restore (template target : ConfigParser.t)
  (sections_pattern ignore_keys_pattern : Re.Pattern) :
  NoDup (ConfigParser.sections target) ->
  (forall s,
      In s (ConfigParser.sections target) ->
      Re.matches sections_pattern s = true ->
      dict_get template s <> None) ->
  exists merged,
    SetupcfgMerge._maybe_preserve_sections template target sections_pattern
      (Some ignore_keys_pattern) = Ok merged
    /\ forall s,
        dict_get merged s
        = if Re.matches sections_pattern s
          then match dict_get target s, dict_get template s with
               | Some data, Some d =>
                   Some (SetupcfgMerge.restore_keys ignore_keys_pattern d data)
               | _, _ => dict_get template s
               end
          else dict_get template s.
Proof.
  unfold SetupcfgMerge._maybe_preserve_sections, ConfigParser.sections.
  intros Hnodup Hhas.
  assert (Hgen : forall l tpl,
             NoDup l ->
             (forall x, In x l -> dict_get target x <> None) ->
             (forall x, In x l -> Re.matches sections_pattern x = true ->
                        dict_get tpl x <> None) ->
             exists merged,
               for_each l
                 (SetupcfgMerge.preserve_section target sections_pattern
                    (Some ignore_keys_pattern)) tpl = Ok merged
               /\ forall s,
                   dict_get merged s
                   = if Re.matches sections_pattern s && existsb (String.eqb s) l
                     then match dict_get target s, dict_get tpl s with
                          | Some data, Some d =>
                              Some (SetupcfgMerge.restore_keys ignore_keys_pattern d data)
                          | _, _ => dict_get tpl s
                          end
                     else dict_get tpl s).
  { induction l as [|x l IH]; intros tpl Hl Htarget Htpl; simpl.
    - exists tpl. split; [reflexivity|]. intros s. now rewrite andb_false_r.
    - inversion Hl as [|? ? Hx Hl']; subst.
      unfold SetupcfgMerge.preserve_section at 1. unfold getitem.
      destruct (dict_get target x) as [data|] eqn:Ex;
        [|exfalso; apply (Htarget x); [now left|exact Ex]].
      destruct (Re.matches sections_pattern x) eqn:Em; simpl.
      + destruct (dict_get tpl x) as [d|] eqn:Ed;
          [|exfalso; apply (Htpl x); [now left|exact Em|exact Ed]].
        simpl.
        set (tpl' := ConfigParser.set_section tpl x
                       (SetupcfgMerge.restore_keys ignore_keys_pattern d data)).
        assert (Hother : forall y, y <> x -> dict_get tpl' y = dict_get tpl y).
        { intros y Hy. unfold tpl', ConfigParser.set_section.
          now apply dict_get_set_other. }
        destruct (IH tpl') as (m & E & Hm); auto.
        { intros y Hy. apply Htarget. now right. }
        { intros y Hy Hmy. rewrite Hother by (intros ->; auto).
          apply Htpl; [now right|exact Hmy]. }
        exists m. split; [exact E|]. intros s. rewrite Hm.
        destruct (String.eqb_spec s x) as [->|Hne]; simpl.
        * assert (Hnot : existsb (String.eqb x) l = false).
          { apply not_true_is_false. now rewrite existsb_eqb_in. }
          rewrite Hnot, Em, andb_false_r, Ex, Ed. simpl.
          unfold tpl', ConfigParser.set_section. apply dict_get_set_same.
        * now rewrite (Hother s Hne).
      + destruct (IH tpl) as (m & E & Hm); auto.
        { intros y Hy. apply Htarget. now right. }
        { intros y Hy. apply Htpl. now right. }
        exists m. split; [exact E|]. intros s. rewrite Hm.
        destruct (String.eqb_spec s x) as [->|Hne]; simpl; [|reflexivity].
        now rewrite Em. }
  destruct (Hgen (keys target) template) as (m & E & Hm); auto.
  { intros x Hx. now apply dict_get_in_keys. }
  exists m. split; [exact E|]. intros s. rewrite Hm.
  destruct (Re.matches sections_pattern s); simpl; [|reflexivity].
  destruct (existsb (String.eqb s) (keys target)) eqn:Ein; [reflexivity|].
  assert (Hnone : dict_get target s = None).
  { destruct (dict_get target s) eqn:E'; [|reflexivity].
    assert (Hin : In s (keys target)) by (apply dict_get_in_keys; congruence).
    apply existsb_eqb_in in Hin. congruence. }
  now rewrite Hnone.
Qed.

(** In the patterns of [apply] the dot is not escaped. *)
Example dot_matches_any_character :
  Re.matches (Re.compile "^options.data_files$") "options-data_files" = true
  /\ Re.matches (Re.compile "^options.data_files$") "options.data_files" = true
  /\ Re.matches (Re.compile "^options.data_files$") "options.data_files.x" = false
  /\ Re.matches (Re.compile "^mypy-") "mypy-project.tests" = true.
Proof. repeat split. Qed.

(** A section name that [^options.extras_require$] matches is matched by
    none of the four other patterns. *)
Lemma extras_require_only (s : string) :
  Re.matches (Re.compile "^options.extras_require$") s = true ->
  Re.matches (Re.compile "^freebsd$") s = false
  /\ Re.matches (Re.compile "^mypy-") s = false
  /\ Re.matches (Re.compile "^options.data_files$") s = false
  /\ Re.matches (Re.compile "^options.entry_points$") s = false.
Proof.
  intros Hm. repeat split;
    (eapply clash_matches; [|exact Hm]); reflexivity.
Qed.

(** C2, as stated, fails: when the section [options.extras_require] of
    the template has no key [develop], the value of the target for
    [develop] is copied with the rest of the section. *)
Lemma SetupcfgMerge_develop_copied :
  let template := [("options.extras_require", [("docs", "sphinx")])] in
  let target := [("options.extras_require", [("develop", "pytest")])] in
  exists merged,
    SetupcfgMerge.preserve_sections template target = Ok merged
    /\ ConfigParser.lookup merged "options.extras_require" "develop" = Some "pytest"
    /\ ConfigParser.lookup merged "options.extras_require" "develop"
       <> ConfigParser.lookup template "options.extras_require" "develop".
Proof.
  eexists. split; [reflexivity|]. split; [reflexivity|]. discriminate.
Qed.

(** C2 (amended): let the template and the target be parsers without
    repeated sections or keys, and let the template have every section
    of the target that [^options.extras_require$] matches. Then the five
    calls of [_maybe_preserve_sections] do not raise, and in the result:
    a section of the target that [^freebsd$], [^mypy-],
    [^options.data_files$] or [^options.entry_points$] matches is the
    section of the target; a section of the target that
    [^options.extras_require$] matches holds the values of the target,
    except that a key that [^develop$] matches and that the section of
    the template has keeps the value of the template; every other section
    is as in the template. In the patterns [.] stands for any character
    but a newline. *)
Theorem SetupcfgMerge_preserve_sections (template target : ConfigParser.t) :
  let copied s :=
    Re.matches (Re.compile "^freebsd$") s
    || Re.matches (Re.compile "^mypy-") s
    || Re.matches (Re.compile "^options.data_files$") s
    || Re.matches (Re.compile "^options.entry_points$") s in
  let extras s := Re.matches (Re.compile "^options.extras_require$") s in
  ConfigParser.wf template = true ->
  ConfigParser.wf target = true ->
  (forall s,
      In s (ConfigParser.sections target) -> extras s = true ->
      ConfigParser.has_section template s = true) ->
  exists merged,
    SetupcfgMerge.preserve_sections template target = Ok merged
    /\ (forall s data,
           dict_get target s = Some data -> copied s = true ->
           dict_get merged s = Some data)
    /\ (forall s k,
           ConfigParser.has_section target s = true -> extras s = true ->
           ConfigParser.lookup merged s k
           = if Re.matches (Re.compile "^develop$") k
             then match ConfigParser.lookup template s k with
                  | Some v => Some v
                  | None => ConfigParser.lookup target s k
                  end
             else ConfigParser.lookup target s k)
    /\ (forall s,
           ConfigParser.has_section target s = false
           \/ (copied s = false /\ extras s = false) ->
           dict_get merged s = dict_get template s).
Proof.
  intros copied extras Hwf Hwf' Hhas.
  unfold SetupcfgMerge.preserve_sections.
  destruct (_maybe_preserve_sections_copy template target (Re.compile "^freebsd$"))
    as (t1 & E1 & H1). rewrite E1. simpl bind.
  destruct (_maybe_preserve_sections_copy t1 target (Re.compile "^mypy-"))
    as (t2 & E2 & H2). rewrite E2. simpl bind.
  destruct (_maybe_preserve_sections_copy t2 target (Re.compile "^options.data_files$"))
    as (t3 & E3 & H3). rewrite E3. simpl bind.
  destruct (_maybe_preserve_sections_copy t3 target (Re.compile "^options.entry_points$"))
    as (t4 & E4 & H4). rewrite E4. simpl bind.
  assert (Hextras : forall s, extras s = true -> dict_get t4 s = dict_get template s).
  { intros s Hs. destruct (extras_require_only s Hs) as (M1 & M2 & M3 & M4).
    now rewrite H4, M4, H3, M3, H2, M2, H1, M1. }
  destruct (_maybe_preserve_sections_restore t4 target
              (Re.compile "^options.extras_require$") (Re.compile "^develop$"))
    as (t5 & E5 & H5).
  { now apply wf_sections. }
  { intros s Hin Hs. rewrite (Hextras s Hs).
    apply has_section_true. now apply Hhas. }
  exists t5. split; [exact E5|]. split; [|split].
  - intros s data Hdata Hcopied.
    assert (Hnot : extras s = false).
    { destruct (extras s) eqn:Hs; [|reflexivity].
      destruct (extras_require_only s Hs) as (M1 & M2 & M3 & M4).
      subst copied. simpl in Hcopied. rewrite M1, M2, M3, M4 in Hcopied.
      discriminate. }
    rewrite H5. fold (extras s). rewrite Hnot.
    rewrite H4, H3, H2, H1, Hdata. subst copied. simpl in Hcopied.
    destruct (Re.matches (Re.compile "^options.entry_points$") s); [reflexivity|].
    destruct (Re.matches (Re.compile "^options.data_files$") s); [reflexivity|].
    destruct (Re.matches (Re.compile "^mypy-") s); [reflexivity|].
    destruct (Re.matches (Re.compile "^freebsd$") s); [reflexivity|].
    discriminate.
  - intros s k Htarget Hs.
    apply has_section_true in Htarget.
    assert (Hin : In s (ConfigParser.sections target))
      by now apply dict_get_in_keys.
    pose proof (Hhas s Hin Hs) as Htemplate. apply has_section_true in Htemplate.
    unfold ConfigParser.lookup. rewrite H5. fold (extras s). rewrite Hs.
    rewrite (Hextras s Hs).
    destruct (dict_get target s) as [data|]; [|congruence].
    destruct (dict_get template s) as [d|] eqn:Ed; [|congruence].
    apply restore_keys_get. now apply (wf_keys template s).
  - intros s Hs. rewrite H5, H4, H3, H2, H1.
    destruct Hs as [Hs|[Hcopied Hs]].
    + assert (Hnone : dict_get target s = None).
      { unfold ConfigParser.has_section in Hs.
        now destruct (dict_get target s). }
      rewrite Hnone.
      destruct (Re.matches (Re.compile "^options.extras_require$") s);
      destruct (Re.matches (Re.compile "^options.entry_points$") s);
      destruct (Re.matches (Re.compile "^options.data_files$") s);
      destruct (Re.matches (Re.compile "^mypy-") s);
      destruct (Re.matches (Re.compile "^freebsd$") s); reflexivity.
    + fold (extras s). rewrite Hs. subst copied. simpl in Hcopied.
      apply orb_false_iff in Hcopied as [Hcopied M4].
      apply orb_false_iff in Hcopied as [Hcopied M3].
      apply orb_false_iff in Hcopied as [M1 M2].
      now rewrite M4, M3, M2, M1.
Qed.

Lemma SetupcfgMerge_preserve_sections_witness :
  let template :=
    [("metadata", [("name", "project")]);
     ("options.extras_require", [("develop", "pytest"); ("docs", "sphinx")]);
     ("options.entry_points", [("console_scripts", "old = old:main")])] in
  let target :=
    [("options.entry_points", [("console_scripts", "new = new:main")]);
     ("options.extras_require", [("develop", "tox"); ("test", "nose")]);
     ("mypy-project.tests", [("ignore_errors", "True")])] in
  exists merged,
    SetupcfgMerge.preserve_sections template target = Ok merged
    /\ dict_get merged "options.entry_points"
       = Some [("console_scripts", "new = new:main")]
    /\ ConfigParser.lookup merged "options.extras_require" "develop" = Some "pytest"
    /\ ConfigParser.lookup merged "options.extras_require" "test" = Some "nose"
    /\ dict_get merged "metadata" = Some [("name", "project")].
Proof.
  intros template target.
  destruct (SetupcfgMerge_preserve_sections template target)
    as (merged & E & Hcopied & Hextras & Hframe).
  - reflexivity.
  - reflexivity.
  - intros s [<-|[<-|[<-|[]]]]; vm_compute; congruence.
  - exists merged. split; [exact E|]. split; [|split; [|split]].
    + apply Hcopied; reflexivity.
    + rewrite Hextras; reflexivity.
    + rewrite Hextras; reflexivity.
    + rewrite Hframe; [reflexivity|]. right. split; reflexivity.
Defined.

(** ** SetupcfgMerge: [apply] *)

(** C3 fails on the code: [SetupcfgMerge] raises [KeyError] when the
    target has the section [options.extras_require] and the template
    lacks it, here for an empty [setup.cfg] of the template. *)
Theorem SetupcfgMerge_merge_raises_KeyError {R : Requirements} :
  SetupcfgMerge.merge []
    (Some [("options.extras_require", [("develop", "pytest")])])
  = Raise (KeyError "options.extras_require").
Proof. reflexivity. Qed.

Lemma preserve_sections_frame (template target merged : ConfigParser.t) (s : string) :
  SetupcfgMerge.preserve_sections template target = Ok merged ->
  Re.matches (Re.compile "^freebsd$") s = false ->
  Re.matches (Re.compile "^mypy-") s = false ->
  Re.matches (Re.compile "^options.data_files$") s = false ->
  Re.matches (Re.compile "^options.entry_points$") s = false ->
  Re.matches (Re.compile "^options.extras_require$") s = false ->
  dict_get merged s = dict_get template s.
Proof.
  unfold SetupcfgMerge.preserve_sections. intros Hrun M1 M2 M3 M4 M5.
  destruct (SetupcfgMerge._maybe_preserve_sections template target _ None)
    as [t1|] eqn:E1; simpl in Hrun; [|discriminate].
  destruct (SetupcfgMerge._maybe_preserve_sections t1 target _ None)
    as [t2|] eqn:E2; simpl in Hrun; [|discriminate].
  destruct (SetupcfgMerge._maybe_preserve_sections t2 target _ None)
    as [t3|] eqn:E3; simpl in Hrun; [|discriminate].
  destruct (SetupcfgMerge._maybe_preserve_sections t3 target _ None)
    as [t4|] eqn:E4; simpl in Hrun; [|discriminate].
  rewrite (_maybe_preserve_sections_frame _ _ _ _ _ s Hrun M5).
  rewrite (_maybe_preserve_sections_frame _ _ _ _ _ s E4 M4).
  rewrite (_maybe_preserve_sections_frame _ _ _ _ _ s E3 M3).
  rewrite (_maybe_preserve_sections_frame _ _ _ _ _ s E2 M2).
  apply (_maybe_preserve_sections_frame _ _ _ _ _ s E1 M1).
Qed.

(** ** The strategies on streams *)

(** [PylintrcMerge.apply] raises only what the parser raises. *)
Lemma PylintrcMerge_apply_parsed {P : Parsers} (self : Strategy)
  (template : ConfigParser.t) (target : option ConfigParser.t) :
  pylintrc_parser (template_contents self) ".pylintrc.template" = Ok template ->
  match target_contents self, target with
  | Some contents, Some target =>
      pylintrc_parser contents ".pylintrc.target" = Ok target
  | None, None => True
  | _, _ => False
  end ->
  exists merged,
    PylintrcMerge.merge template target = Ok merged
    /\ PylintrcMerge.apply self = Ok (parser_to_pretty_output merged).
Proof.
  intros Htemplate Htarget.
  destruct (PylintrcMerge_merge_ok template target) as [merged E].
  exists merged. split; [exact E|].
  unfold PylintrcMerge.apply. rewrite Htemplate. cbn [bind].
  destruct (target_contents self) as [contents|], target as [target|];
    try contradiction.
  - rewrite Htarget. cbn [bind]. now rewrite E.
  - cbn [bind]. now rewrite E.
Qed.

(** The [KeyError] of [SetupcfgMerge] comes out of [apply]. *)
Lemma SetupcfgMerge_apply_raises {R : Requirements} {P : Parsers}
  (self : Strategy) (contents : BinaryIO) :
  target_contents self = Some contents ->
  setup_cfg_parser (template_contents self) "setup.cfg.template" = Ok [] ->
  setup_cfg_parser contents "setup.cfg.target"
  = Ok [("options.extras_require", [("develop", "pytest")])] ->
  SetupcfgMerge.apply self = Raise (KeyError "options.extras_require").
Proof.
  intros Hcontents Htemplate Htarget. unfold SetupcfgMerge.apply.
  rewrite Htemplate, Hcontents. simpl. rewrite Htarget. reflexivity.
Qed.

(** * Further properties *)

(** ** SortedUniqueLines: how applications compose *)

(** X1: running [SortedUniqueLines] again on an output of its own, with
    the template unchanged, gives that output again, whatever the first
    target was and whatever the case folding. *)
Theorem SortedUniqueLines_rerun (casefold : Str.str -> Str.str)
  (self : Strategy) (meta : TemplateMeta) (out : BinaryIO) :
  SortedUniqueLines.apply casefold self = Ok out ->
  SortedUniqueLines.apply casefold
    {| target_contents := Some out;
       template_contents := template_contents self;
       template_meta := meta |}
  = Ok out.
Proof.
  intros E.
  destruct (SortedUniqueLinesFacts.lines_of_output casefold self out E)
    as (l & text & El & Ed & Es).
  pose proof El as El'.
  apply SortedUniqueLinesFacts.read_lines_inv in El' as (t & g & Et & Eg & Hl).
  rewrite <- E.
  apply (SortedUniqueLinesFacts.apply_ext casefold _ _
           (Str.splitlines t ++ Str.splitlines text) l).
  - apply (SortedUniqueLinesFacts.read_lines_decoded _ t (Some text)); assumption.
  - exact El.
  - intros line Hne. rewrite in_app_iff, Es, SortedUniqueLinesFacts.sorted_unique_in.
    subst l. rewrite !in_app_iff. tauto.
Qed.

Lemma SortedUniqueLines_rerun_witness :
  let meta := {| is_git_dirty := false; commit_url := "" |} in
  let self :=
    {| target_contents := Some (BytesIO ("c" ++ String Py.LF ""));
       template_contents := BytesIO ("b" ++ String Py.LF "a" ++ String Py.LF "");
       template_meta := meta |} in
  let out := BytesIO ("a" ++ String Py.LF "b" ++ String Py.LF "c" ++ String Py.LF "") in
  SortedUniqueLines.apply Str.ascii_casefold
    {| target_contents := Some out;
       template_contents := template_contents self;
       template_meta := meta |}
  = Ok out.
Proof.
  intros meta self out.
  apply (SortedUniqueLines_rerun Str.ascii_casefold self meta out). reflexivity.
Defined.

(** X2: merging three files with [SortedUniqueLines] does not depend on
    the grouping: when [ab] is the output for template [a] and target
    [b], and [bc] the output for template [b] and target [c], the result
    for template [ab] and target [c] is the result for template [a] and
    target [bc]. *)
Theorem SortedUniqueLines_associative (casefold : Str.str -> Str.str)
  (a b c ab bc : BinaryIO) (m1 m2 m3 m4 : TemplateMeta) :
  SortedUniqueLines.apply casefold
    {| target_contents := Some b; template_contents := a; template_meta := m1 |}
  = Ok ab ->
  SortedUniqueLines.apply casefold
    {| target_contents := Some c; template_contents := b; template_meta := m3 |}
  = Ok bc ->
  SortedUniqueLines.apply casefold
    {| target_contents := Some c; template_contents := ab; template_meta := m2 |}
  = SortedUniqueLines.apply casefold
      {| target_contents := Some bc; template_contents := a; template_meta := m4 |}.
Proof.
  intros Eab Ebc.
  destruct (SortedUniqueLinesFacts.lines_of_output casefold _ ab Eab)
    as (lab & tab & Elab & Edab & Esab).
  destruct (SortedUniqueLinesFacts.lines_of_output casefold _ bc Ebc)
    as (lbc & tbc & Elbc & Edbc & Esbc).
  apply SortedUniqueLinesFacts.read_lines_inv in Elab as (ta & [tb|] & Eta & Etb & ->);
    [|contradiction].
  apply SortedUniqueLinesFacts.read_lines_inv in Elbc as (tb' & [tc|] & Etb' & Etc & ->);
    [|contradiction].
  simpl in Eta, Etb, Etb', Etc.
  apply (SortedUniqueLinesFacts.apply_ext casefold _ _
           (Str.splitlines tab ++ Str.splitlines tc)
           (Str.splitlines ta ++ Str.splitlines tbc)).
  - apply (SortedUniqueLinesFacts.read_lines_decoded _ tab (Some tc)); assumption.
  - apply (SortedUniqueLinesFacts.read_lines_decoded _ ta (Some tbc)); assumption.
  - intros line Hne. rewrite !in_app_iff, Esab, Esbc.
    rewrite !SortedUniqueLinesFacts.sorted_unique_in, !in_app_iff.
    assert (tb' = tb) by congruence. subst tb'. tauto.
Qed.

Lemma SortedUniqueLines_associative_witness :
  let meta := {| is_git_dirty := false; commit_url := "" |} in
  let a := BytesIO ("x" ++ String Py.LF "") in
  let b := BytesIO ("Y" ++ String Py.LF "x" ++ String Py.LF "") in
  let c := BytesIO ("a" ++ String Py.LF "") in
  let ab := BytesIO ("x" ++ String Py.LF "Y" ++ String Py.LF "") in
  let bc := BytesIO ("a" ++ String Py.LF "x" ++ String Py.LF "Y" ++ String Py.LF "") in
  SortedUniqueLines.apply Str.ascii_casefold
    {| target_contents := Some c; template_contents := ab; template_meta := meta |}
  = SortedUniqueLines.apply Str.ascii_casefold
      {| target_contents := Some bc; template_contents := a; template_meta := meta |}.
Proof.
  intros meta a b c ab bc.
  apply (SortedUniqueLines_associative Str.ascii_casefold a b c ab bc
           meta meta meta meta); reflexivity.
Defined.

(** X3: a target that decodes and all of whose non-empty lines are lines
    of the template adds nothing: the result is the result without a
    target. *)
Theorem SortedUniqueLines_target_absorbed (casefold : Str.str -> Str.str)
  (template target : BinaryIO) (meta meta' : TemplateMeta)
  (template_text target_text : Str.str) :
  Str.decode (read template) = Ok template_text ->
  Str.decode (read target) = Ok target_text ->
  (forall line,
      In line (Str.splitlines target_text) ->
      line = [] \/ In line (Str.splitlines template_text)) ->
  SortedUniqueLines.apply casefold
    {| target_contents := Some target; template_contents := template;
       template_meta := meta |}
  = SortedUniqueLines.apply casefold
      {| target_contents := None; template_contents := template;
         template_meta := meta' |}.
Proof.
  intros Et Eg Hsub.
  apply (SortedUniqueLinesFacts.apply_ext casefold _ _
           (Str.splitlines template_text ++ Str.splitlines target_text)
           (Str.splitlines template_text ++ [])).
  - apply (SortedUniqueLinesFacts.read_lines_decoded _ template_text (Some target_text));
      assumption.
  - apply (SortedUniqueLinesFacts.read_lines_decoded _ template_text None);
      [assumption|exact I].
  - intros line Hne. rewrite !in_app_iff. split.
    + intros [H|H]; [now left|]. destruct (Hsub line H) as [->|Hin]; [congruence|now left].
    + intros [H|[]]. now left.
Qed.

Lemma SortedUniqueLines_target_absorbed_witness :
  let meta := {| is_git_dirty := false; commit_url := "" |} in
  let template := BytesIO ("*.pyc" ++ String Py.LF "build/" ++ String Py.LF "") in
  let target :=
    BytesIO ("build/" ++ String Py.LF "" ++ String Py.LF "build/" ++ String Py.LF "") in
  SortedUniqueLines.apply Str.ascii_casefold
    {| target_contents := Some target; template_contents := template;
       template_meta := meta |}
  = Ok (BytesIO ("*.pyc" ++ String Py.LF "build/" ++ String Py.LF "")).
Proof.
  intros meta template target.
  rewrite (SortedUniqueLines_target_absorbed Str.ascii_casefold template target
             meta meta
             [42; 46; 112; 121; 99; 10; 98; 117; 105; 108; 100; 47; 10]%N
             [98; 117; 105; 108; 100; 47; 10; 10; 98; 117; 105; 108; 100; 47; 10]%N
             eq_refl eq_refl).
  - reflexivity.
  - intros line Hin. vm_compute in Hin. vm_compute.
    destruct Hin as [<-|[<-|[<-|[]]]]; auto.
Defined.

(** ** TemplateHash: later applications *)

Lemma prefix_app (sub rest : string) : String.prefix sub (sub ++ rest) = true.
Proof.
  induction sub as [|c sub IH]; simpl; [now destruct rest|].
  destruct (ascii_dec c c); [exact IH|congruence].
Qed.

Lemma prefix_contains (sub s : string) :
  String.prefix sub s = true -> contains sub s = true.
Proof. intros H. destruct s; cbn [contains]; now rewrite H. Qed.

Lemma contains_app (sub before : string) (after : string) :
  contains sub (before ++ sub ++ after) = true.
Proof.
  induction before as [|c before IH]; simpl.
  - apply prefix_contains, prefix_app.
  - rewrite IH. apply orb_true_r.
Qed.

Lemma contains_drop (sub s : string) (n : nat) :
  contains sub (drop n s) = true -> contains sub s = true.
Proof.
  revert s; induction n as [|n IH]; intros s; simpl; [auto|].
  destruct s as [|c s]; [auto|].
  intros H. simpl. rewrite (IH s H). apply orb_true_r.
Qed.

(** X4: [TemplateHash.apply] is stable. Applied again to its own output,
    with the same template and metadata, it returns that output; and for
    a template that is not dirty it returns that output whatever the
    content of the template has become. *)
Theorem TemplateHash_rerun (c : TemplateHash.cls) (self : Strategy) :
  let out := TemplateHash.apply c self in
  TemplateHash.apply c
    {| target_contents := Some out;
       template_contents := template_contents self;
       template_meta := template_meta self |}
  = out
  /\ (is_git_dirty (template_meta self) = false ->
      forall template,
        TemplateHash.apply c
          {| target_contents := Some out;
             template_contents := template;
             template_meta := template_meta self |}
        = out).
Proof.
  intros out.
  assert (Hcomment : forall target template,
             TemplateHash.comment c
               {| target_contents := target; template_contents := template;
                  template_meta := template_meta self |}
             = TemplateHash.comment c self).
  { intros target template. destruct c; reflexivity. }
  assert (Hclean : is_git_dirty (template_meta self) = false ->
                   forall template,
                     TemplateHash.apply c
                       {| target_contents := Some out;
                          template_contents := template;
                          template_meta := template_meta self |}
                     = out).
  { intros Hdirty template.
    assert (Hin : contains (TemplateHash.comment c self) (read out) = true).
    { subst out. unfold TemplateHash.apply, TemplateHash.keeps_target.
      rewrite Hdirty. simpl negb.
      assert (Hnew : contains (TemplateHash.comment c self)
                       (read (BytesIO (read (template_contents self)
                                       ++ String LF "" ++ TemplateHash.comment c self)))
                     = true).
      { unfold read at 1. cbn [BytesIO tell getvalue drop].
        replace (read (template_contents self) ++ String LF ""
                 ++ TemplateHash.comment c self)%string
          with ((read (template_contents self) ++ String LF "")
                ++ TemplateHash.comment c self ++ "")%string
          by (now rewrite string_app_assoc, string_app_nil_r).
        apply contains_app. }
      destruct (target_contents self) as [target|]; [|exact Hnew].
      rewrite andb_true_r.
      destruct (contains (TemplateHash.comment c self) (read target)) eqn:E;
        [|exact Hnew].
      unfold read in *. simpl. now apply contains_drop in E. }
    unfold TemplateHash.apply at 1. unfold TemplateHash.keeps_target.
    cbn [target_contents template_meta]. rewrite Hcomment, Hin, Hdirty.
    simpl. subst out. unfold TemplateHash.apply.
    destruct (target_contents self) as [target|]; [|reflexivity].
    now destruct (TemplateHash.keeps_target c self (read target)). }
  split; [|exact Hclean].
  destruct (is_git_dirty (template_meta self)) eqn:Hdirty; [|now apply Hclean].
  assert (Hout : out = BytesIO (read (template_contents self)
                                ++ String LF "" ++ TemplateHash.comment c self)).
  { subst out. unfold TemplateHash.apply, TemplateHash.keeps_target.
    rewrite Hdirty. simpl negb.
    destruct (target_contents self); rewrite ?andb_false_r; reflexivity. }
  unfold TemplateHash.apply, TemplateHash.keeps_target.
  cbn [target_contents template_meta template_contents].
  rewrite Hdirty, Hcomment. simpl negb. rewrite andb_false_r. now rewrite Hout.
Qed.

(** X5: in the comment of [PythonTemplateHash], for a commit URL without
    a newline, the first line is never marked and the second line is
    marked with [# noqa] exactly when the URL has at least 80 characters,
    or at least 72 for a dirty template. *)
Theorem PythonTemplateHash_noqa_threshold (self : Strategy) :
  has_char LF (commit_url (template_meta self)) = false ->
  let url := commit_url (template_meta self) in
  let dirty := is_git_dirty (template_meta self) in
  TemplateHash.comment TemplateHash.Python self
  = ("# Generated by https://github.com/rambler-digital-solutions/scaraplate"
     ++ String LF
          ((if dirty then "# From (dirty) " else "# From ") ++ url
           ++ (if Nat.leb (if dirty then 72 else 80) (String.length url)
               then "  # noqa" else "")
           ++ String LF ""))%string.
Proof.
  intros Hurl url dirty. unfold TemplateHash.comment.
  rewrite base_comment_format. fold dirty url.
  set (line1 := ("#" ++ " "
                 ++ "Generated by https://github.com/rambler-digital-solutions/scaraplate")%string).
  set (line2 := ((if dirty then "# From (dirty) " else "# From ") ++ url)%string).
  assert (E : (TemplateHash.line_comment_start TemplateHash.Python ++ " "
               ++ "Generated by https://github.com/rambler-digital-solutions/scaraplate"
               ++ String LF
                    (TemplateHash.line_comment_start TemplateHash.Python ++ " "
                     ++ (if dirty then "From (dirty) " else "From ")
                     ++ url ++ String LF ""))%string
              = (line1 ++ String LF (line2 ++ String LF ""))%string).
  { subst line1 line2. destruct dirty; simpl; rewrite ?string_app_assoc; reflexivity. }
  rewrite E.
  assert (H1 : has_char LF line1 = false) by reflexivity.
  assert (H2 : has_char LF line2 = false).
  { subst line2. rewrite has_char_app. fold url in Hurl. rewrite Hurl.
    now destruct dirty. }
  unfold split. rewrite (split_from_piece LF line1 _ "" H1).
  rewrite (split_from_piece LF line2 _ "" H2).
  simpl split_from. cbn [map]. unfold join. cbn [String.concat].
  assert (N1 : TemplateHash._maybe_add_noqa ("" ++ line1) = line1) by reflexivity.
  assert (N2 : TemplateHash._maybe_add_noqa ("" ++ line2)
               = (line2 ++ (if Nat.leb (if dirty then 72 else 80) (String.length url)
                            then "  # noqa" else ""))%string).
  { unfold TemplateHash._maybe_add_noqa, TemplateHash.line_length. subst line2.
    destruct dirty.
    - assert (L : Nat.leb 87 (String.length ("" ++ "# From (dirty) " ++ url))
                  = Nat.leb 72 (String.length url)) by reflexivity.
      rewrite L. destruct (Nat.leb 72 (String.length url));
        [reflexivity|now rewrite string_app_nil_r].
    - assert (L : Nat.leb 87 (String.length ("" ++ "# From " ++ url))
                  = Nat.leb 80 (String.length url)) by reflexivity.
      rewrite L. destruct (Nat.leb 80 (String.length url));
        [reflexivity|now rewrite string_app_nil_r]. }
  rewrite N1, N2. subst line1 line2.
  destruct dirty; simpl; rewrite ?string_app_assoc; reflexivity.
Qed.

Lemma PythonTemplateHash_noqa_threshold_witness :
  let self :=
    {| target_contents := None;
       template_contents := BytesIO "";
       template_meta := {| is_git_dirty := true;
                           commit_url := "https://example.org/commit/1f" |} |} in
  TemplateHash.comment TemplateHash.Python self
  = ("# Generated by https://github.com/rambler-digital-solutions/scaraplate"
     ++ String LF "# From (dirty) https://example.org/commit/1f" ++ String LF "")%string.
Proof.
  intros self.
  rewrite (PythonTemplateHash_noqa_threshold self eq_refl). reflexivity.
Defined.

(** ** SetupcfgMerge: more on the merge of the requirements *)

Lemma sorted_of_sorted {A K : Type} (key : A -> K) (le : K -> K -> bool)
  (l : list A) :
  StronglySorted (key_le key le) l -> sorted key le l = l.
Proof.
  induction 1 as [|x l Hs IH Hall]; simpl; [reflexivity|].
  rewrite IH. destruct l as [|y l]; [reflexivity|]. simpl.
  inversion Hall as [|? ? Hxy _]; subst. unfold key_le in Hxy. now rewrite Hxy.
Qed.

Lemma filter_none {A : Type} (f : A -> bool) (l : list A) :
  (forall x, In x l -> f x = false) -> filter f l = [].
Proof.
  induction l as [|x l IH]; intros H; simpl; [reflexivity|].
  rewrite (H x) by now left. apply IH. intros y Hy. apply H. now right.
Qed.

Section MoreMergeRequirements.
Context {R : Requirements}.
Import SetupcfgMerge.

Lemma wanted_requirements_names (template_requirements target_requirements : list string)
  (n : string) :
  In n (map normalize_requirement
          (wanted_requirements template_requirements target_requirements))
  <-> In n (map normalize_requirement target_requirements)
      \/ In n (map normalize_requirement template_requirements).
Proof.
  rewrite (Permutation_in' (eq_refl n)
             (Permutation_map normalize_requirement
                (wanted_requirements_perm template_requirements target_requirements))).
  rewrite map_app, in_app_iff. split.
  - intros [H|H]; [now left|]. right.
    apply in_map_iff in H as (r & E & Hr). apply filter_In in Hr as [Hr _].
    apply in_map_iff. eauto.
  - intros [H|H]; [now left|].
    destruct (existsb (String.eqb n)
                (map normalize_requirement target_requirements)) eqn:E.
    + left. now apply existsb_eqb_in.
    + right. apply in_map_iff in H as (r & <- & Hr).
      apply in_map_iff. exists r. split; [reflexivity|].
      apply filter_In. split; [exact Hr|]. now rewrite E.
Qed.

End MoreMergeRequirements.

(** X6: merging the requirements is idempotent: when the merged list is
    given back as the list of the target, with the same template, the
    merge returns it unchanged. *)
Theorem SetupcfgMerge_wanted_requirements_idempotent {R : Requirements}
  (template_requirements target_requirements : list string) :
  let merged :=
    SetupcfgMerge.wanted_requirements template_requirements target_requirements in
  SetupcfgMerge.wanted_requirements template_requirements merged = merged.
Proof.
  intros merged. rewrite wanted_requirements_eq.
  assert (Hnone : filter
                    (fun requirement =>
                       negb (existsb
                               (String.eqb (SetupcfgMerge.normalize_requirement requirement))
                               (map SetupcfgMerge.normalize_requirement merged)))
                    template_requirements = []).
  { apply filter_none. intros r Hr. apply negb_false_iff.
    apply existsb_eqb_in. subst merged.
    apply wanted_requirements_names. right. now apply in_map. }
  rewrite Hnone, app_nil_r. apply sorted_of_sorted.
  subst merged. apply wanted_requirements_sorted.
Qed.

(** X7: the normalized names of the merged list are the normalized names
    of the target together with those of the template: every package of
    either input is in the result, and no other. *)
Theorem SetupcfgMerge_wanted_requirements_names {R : Requirements}
  (template_requirements target_requirements : list string) (n : string) :
  let name := SetupcfgMerge.normalize_requirement in
  In n (map name
          (SetupcfgMerge.wanted_requirements template_requirements target_requirements))
  <-> In n (map name target_requirements) \/ In n (map name template_requirements).
Proof. intros name. apply wanted_requirements_names. Qed.

(** The specifiers that the merge appends keep distinct names. *)
Lemma new_requirements_distinct {R : Requirements}
  (target_requirements template_requirements : list string) :
  NoDup (map SetupcfgMerge.normalize_requirement template_requirements) ->
  NoDup (map SetupcfgMerge.normalize_requirement
           (filter
              (fun requirement =>
                 negb (existsb
                         (String.eqb (SetupcfgMerge.normalize_requirement requirement))
                         (map SetupcfgMerge.normalize_requirement target_requirements)))
              template_requirements)).
Proof.
  induction template_requirements as [|r rest IH]; intros Hd; [constructor|].
  apply NoDup_cons_iff in Hd as [Hfresh Hrest]. cbn [filter].
  destruct (negb _); [|now apply IH].
  cbn [map]. apply NoDup_cons_iff. split; [|now apply IH].
  contradict Hfresh. apply in_map_iff in Hfresh as (r' & Hname & Hr').
  apply in_map_iff. exists r'. split; [exact Hname|]. now apply filter_In in Hr'.
Qed.

(** X8: when no two specifiers of the target and no two specifiers of
    the template have the same normalized name, no two specifiers of the
    merged list have. *)
Theorem SetupcfgMerge_wanted_requirements_distinct {R : Requirements}
  (template_requirements target_requirements : list string) :
  let name := SetupcfgMerge.normalize_requirement in
  NoDup (map name target_requirements) ->
  NoDup (map name template_requirements) ->
  NoDup (map name
           (SetupcfgMerge.wanted_requirements template_requirements target_requirements)).
Proof.
  intros name Htarget Htemplate.
  apply (Permutation_NoDup
           (Permutation_map name
              (Permutation_sym
                 (wanted_requirements_perm template_requirements target_requirements)))).
  rewrite map_app. apply NoDup_app.
  - exact Htarget.
  - now apply new_requirements_distinct.
  - intros n Hn Hnew. apply in_map_iff in Hnew as (r & <- & Hr).
    apply filter_In in Hr as [_ Hr]. apply negb_true_iff in Hr.
    apply existsb_eqb_in in Hn. unfold name in Hn. congruence.
Qed.

Lemma SetupcfgMerge_wanted_requirements_distinct_witness :
  NoDup (map (SetupcfgMerge.normalize_requirement (R := SpecRequirements.requirements))
           (SetupcfgMerge.wanted_requirements (R := SpecRequirements.requirements)
              ["foo>=1.0"; "bar==2.0"] ["Foo==1.5"; "baz"])).
Proof.
  apply (SetupcfgMerge_wanted_requirements_distinct (R := SpecRequirements.requirements)).
  - vm_compute. repeat constructor; simpl; intuition discriminate.
  - vm_compute. repeat constructor; simpl; intuition discriminate.
Defined.

(** ** The preservation of a key, applied again *)

Lemma dict_set_twice {V : Type} (d : dict V) (k : string) (v v' : V) :
  dict_set (dict_set d k v) k v' = dict_set d k v'.
Proof.
  induction d as [|[k0 v0] d IH]; simpl.
  - now rewrite String.eqb_refl.
  - destruct (String.eqb k0 k) eqn:E; simpl; rewrite E; [reflexivity|].
    now rewrite IH.
Qed.

Lemma dict_set_same_value {V : Type} (d : dict V) (k : string) (v : V) :
  dict_get d k = Some v -> dict_set d k v = d.
Proof.
  induction d as [|[k0 v0] d IH]; simpl; [discriminate|].
  destruct (String.eqb k0 k) eqn:E.
  - now intros [= ->].
  - intros H. now rewrite IH.
Qed.

(** [_maybe_preserve_key] reads the target only at the key. *)
Lemma _maybe_preserve_key_ext (template target target' : ConfigParser.t)
  (section key : string) :
  ConfigParser.lookup target section key = ConfigParser.lookup target' section key ->
  _maybe_preserve_key template target section key
  = _maybe_preserve_key template target' section key.
Proof.
  intros E. unfold _maybe_preserve_key.
  pose proof (get_lookup target section key) as H.
  pose proof (get_lookup target' section key) as H'.
  rewrite <- E in H'.
  destruct (ConfigParser.lookup target section key).
  - now rewrite H, H'.
  - destruct H as [k ->], H' as [k' ->]. reflexivity.
Qed.

Lemma _maybe_preserve_key_absent (template target : ConfigParser.t)
  (section key : string) :
  ConfigParser.lookup target section key = None ->
  _maybe_preserve_key template target section key = Ok template.
Proof.
  intros E. unfold _maybe_preserve_key.
  pose proof (get_lookup target section key) as H. rewrite E in H.
  now destruct H as [k ->].
Qed.

(** A value that the template already has is written without a change. *)
Lemma _maybe_preserve_key_same (template target : ConfigParser.t)
  (section key value : string) :
  ConfigParser.lookup target section key = Some value ->
  ConfigParser.lookup template section key = Some value ->
  _maybe_preserve_key template target section key = Ok template.
Proof.
  intros Htarget Htemplate. unfold _maybe_preserve_key.
  pose proof (get_lookup target section key) as H. rewrite Htarget in H.
  rewrite H. unfold ConfigParser.lookup in Htemplate.
  destruct (dict_get template section) as [d|] eqn:Ed; [|discriminate].
  unfold _ensure_section, ConfigParser.has_section. rewrite Ed. simpl.
  unfold ConfigParser.set, getitem. rewrite Ed. simpl.
  rewrite (dict_set_same_value d key value Htemplate).
  now rewrite (dict_set_same_value template section d Ed).
Qed.

(** X9: [_maybe_preserve_key] does not raise and is idempotent: called
    again with the same target, it leaves the parser as the first call
    left it. *)
Theorem _maybe_preserve_key_idempotent (template target : ConfigParser.t)
  (section key : string) :
  exists merged,
    _maybe_preserve_key template target section key = Ok merged
    /\ _maybe_preserve_key merged target section key = Ok merged.
Proof.
  destruct (_maybe_preserve_key_spec template target section key)
    as (merged & E & Hl & _).
  exists merged. split; [exact E|].
  destruct (ConfigParser.lookup target section key) as [v|] eqn:Ht.
  - apply (_maybe_preserve_key_same merged target section key v Ht).
    now rewrite Hl, !String.eqb_refl.
  - now apply _maybe_preserve_key_absent.
Qed.

(** X10: [PylintrcMerge] does not raise on parsed documents and is
    stable: merging the template with the result of a merge as the
    target gives that result again. *)
Theorem PylintrcMerge_rerun (template : ConfigParser.t)
  (target : option ConfigParser.t) :
  exists merged,
    PylintrcMerge.merge template target = Ok merged
    /\ PylintrcMerge.merge template (Some merged) = Ok merged.
Proof.
  assert (Hstep : forall tpl tgt section key merged later,
             _maybe_preserve_key tpl tgt section key = Ok merged ->
             ConfigParser.lookup later section key
             = ConfigParser.lookup merged section key ->
             _maybe_preserve_key tpl later section key = Ok merged).
  { intros tpl tgt section key merged later E Hlater.
    destruct (_maybe_preserve_key_spec tpl tgt section key) as (m & E' & Hl & _).
    rewrite E in E'. injection E' as <-.
    specialize (Hl section key). rewrite !String.eqb_refl in Hl. simpl in Hl.
    destruct (ConfigParser.lookup tgt section key) as [v|] eqn:Ht.
    - rewrite <- E. apply _maybe_preserve_key_ext. congruence.
    - rewrite (_maybe_preserve_key_absent _ _ _ _ Ht) in E. injection E as <-.
      destruct (ConfigParser.lookup tpl section key) as [v|] eqn:Hv.
      + now apply (_maybe_preserve_key_same tpl later section key v).
      + apply _maybe_preserve_key_absent. congruence. }
  destruct target as [target|]; simpl.
  - destruct (_maybe_preserve_key_spec template target "TYPECHECK" "ignored-modules")
      as (p1 & E1 & L1 & _).
    rewrite E1. simpl.
    destruct (_maybe_preserve_key_spec p1 target "TYPECHECK" "ignored-classes")
      as (p2 & E2 & L2 & _).
    exists p2. split; [exact E2|].
    rewrite (Hstep template target "TYPECHECK" "ignored-modules" p1 p2 E1).
    + simpl. apply (Hstep p1 target "TYPECHECK" "ignored-classes" p2 p2 E2).
      reflexivity.
    + rewrite L2. reflexivity.
  - exists template. split; [reflexivity|].
    assert (Hself : forall key,
               _maybe_preserve_key template template "TYPECHECK" key = Ok template).
    { intros key.
      destruct (ConfigParser.lookup template "TYPECHECK" key) as [v|] eqn:Hv.
      - now apply (_maybe_preserve_key_same template template "TYPECHECK" key v).
      - now apply _maybe_preserve_key_absent. }
    rewrite Hself. simpl. apply Hself.
Qed.

(** X11: [_merge_requirements] does not raise and writes one key only:
    every other key of the section and every other section are as
    before, and the section is created when the parser lacks it. *)
Theorem SetupcfgMerge_merge_requirements_frame {R : Requirements}
  (template : ConfigParser.t) (target : option ConfigParser.t)
  (section key : string) :
  exists merged,
    SetupcfgMerge._merge_requirements template target section key = Ok merged
    /\ ConfigParser.lookup merged section key <> None
    /\ (forall k, k <> key ->
                  ConfigParser.lookup merged section k
                  = ConfigParser.lookup template section k)
    /\ (forall s, s <> section -> dict_get merged s = dict_get template s)
    /\ (forall s,
           ConfigParser.has_section merged s
           = ConfigParser.has_section template s || String.eqb s section).
Proof.
  destruct (_merge_requirements_spec template target section key)
    as (merged & E & Hl & Hs & Hh).
  exists merged. split; [exact E|]. split; [|split; [|split]].
  - rewrite Hl, !String.eqb_refl. discriminate.
  - intros k Hk. rewrite Hl, String.eqb_refl.
    apply String.eqb_neq in Hk. now rewrite Hk.
  - exact Hs.
  - exact Hh.
Qed.

(** ** SetupcfgMerge: when [apply] raises, and what it leaves alone *)

(** With keys to ignore, the loop of [_maybe_preserve_sections] either
    finds every matched section in the template, or raises [KeyError]
    for a matched section that the template lacks. *)
Lemma _maybe_preserve_sections_cases (template target : ConfigParser.t)
  (sections_pattern ignore_keys_pattern : Re.Pattern) :
  (exists merged,
      SetupcfgMerge._maybe_preserve_sections template target sections_pattern
        (Some ignore_keys_pattern) = Ok merged
      /\ forall x, In x (ConfigParser.sections target) ->
                   Re.matches sections_pattern x = true ->
                   dict_get template x <> None)
  \/ (exists x,
         SetupcfgMerge._maybe_preserve_sections template target sections_pattern
           (Some ignore_keys_pattern) = Raise (KeyError x)
         /\ In x (ConfigParser.sections target)
         /\ Re.matches sections_pattern x = true
         /\ dict_get template x = None).
Proof.
  unfold SetupcfgMerge._maybe_preserve_sections, ConfigParser.sections.
  assert (Htarget : forall x, In x (keys target) -> dict_get target x <> None)
    by (intros x Hx; now apply dict_get_in_keys).
  revert Htarget. generalize (keys target) as l.
  intros l; revert template; induction l as [|x l IH]; intros tpl Htarget; simpl.
  - left. exists tpl. split; [reflexivity|]. intros x [].
  - unfold SetupcfgMerge.preserve_section at 1 3. unfold getitem.
    destruct (dict_get target x) as [data|] eqn:Ex;
      [|exfalso; apply (Htarget x); [now left|exact Ex]].
    destruct (Re.matches sections_pattern x) eqn:Em; simpl.
    + destruct (dict_get tpl x) as [d|] eqn:Ed; simpl.
      * set (tpl' := ConfigParser.set_section tpl x
                       (SetupcfgMerge.restore_keys ignore_keys_pattern d data)).
        assert (Hother : forall y, y <> x -> dict_get tpl' y = dict_get tpl y).
        { intros y Hy. unfold tpl', ConfigParser.set_section.
          now apply dict_get_set_other. }
        destruct (IH tpl') as [(m & E & Hall)|(y & E & Hy & Hm & Hnone)].
        { intros y Hy. apply Htarget. now right. }
        -- left. exists m. split; [exact E|].
           intros y [<-|Hy] Hmy; [congruence|].
           destruct (String.eqb_spec y x) as [->|Hne]; [congruence|].
           rewrite <- (Hother y Hne). now apply Hall.
        -- right. exists y. split; [exact E|]. split; [now right|].
           split; [exact Hm|].
           destruct (String.eqb_spec y x) as [->|Hne].
           ++ unfold tpl', ConfigParser.set_section in Hnone.
              rewrite dict_get_set_same in Hnone. discriminate.
           ++ now rewrite <- (Hother y Hne).
      * right. exists x. repeat split; auto; now left.
    + destruct (IH tpl) as [(m & E & Hall)|(y & E & Hy & Hm & Hnone)].
      { intros y Hy. apply Htarget. now right. }
      * left. exists m. split; [exact E|].
        intros y [<-|Hy] Hmy; [congruence|]. now apply Hall.
      * right. exists y. repeat split; auto; now right.
Qed.

(** X12: on parsed documents [SetupcfgMerge] raises in one case only.
    With a target, it succeeds exactly when the template has every
    section of the target that [^options.extras_require$] matches;
    otherwise it raises [KeyError] with the name of such a section that
    the template lacks. *)
Theorem SetupcfgMerge_merge_raises_only_KeyError {R : Requirements}
  (template target : ConfigParser.t) :
  match SetupcfgMerge.merge template (Some target) with
  | Ok _ =>
      forall s,
        In s (ConfigParser.sections target) ->
        Re.matches (Re.compile "^options.extras_require$") s = true ->
        ConfigParser.has_section template s = true
  | Raise e =>
      exists s,
        e = KeyError s
        /\ In s (ConfigParser.sections target)
        /\ Re.matches (Re.compile "^options.extras_require$") s = true
        /\ ConfigParser.has_section template s = false
  end.
Proof.
  unfold SetupcfgMerge.merge, SetupcfgMerge.preserve_sections.
  destruct (_maybe_preserve_sections_copy template target (Re.compile "^freebsd$"))
    as (t1 & E1 & H1). rewrite E1. cbn [bind].
  destruct (_maybe_preserve_sections_copy t1 target (Re.compile "^mypy-"))
    as (t2 & E2 & H2). rewrite E2. cbn [bind].
  destruct (_maybe_preserve_sections_copy t2 target (Re.compile "^options.data_files$"))
    as (t3 & E3 & H3). rewrite E3. cbn [bind].
  destruct (_maybe_preserve_sections_copy t3 target (Re.compile "^options.entry_points$"))
    as (t4 & E4 & H4). rewrite E4. cbn [bind].
  assert (Hextras : forall s,
             Re.matches (Re.compile "^options.extras_require$") s = true ->
             dict_get t4 s = dict_get template s).
  { intros s Hs. destruct (extras_require_only s Hs) as (M1 & M2 & M3 & M4).
    now rewrite H4, M4, H3, M3, H2, M2, H1, M1. }
  destruct (_maybe_preserve_sections_cases t4 target
              (Re.compile "^options.extras_require$") (Re.compile "^develop$"))
    as [(t5 & E5 & Hall)|(x & E5 & Hx & Hm & Hnone)]; rewrite E5; cbn [bind].
  - destruct (_maybe_preserve_key_spec t5 target "tool:pytest" "testpaths")
      as (t6 & E6 & _). rewrite E6. cbn [bind].
    destruct (_maybe_preserve_key_spec t6 target "build" "executable")
      as (t7 & E7 & _). rewrite E7. cbn [bind].
    destruct (_merge_requirements_spec t7 (Some target)
                "options.extras_require" "develop") as (t8 & E8 & _).
    rewrite E8. cbn [bind].
    destruct (_merge_requirements_spec t8 (Some target) "options" "install_requires")
      as (t9 & E9 & _).
    rewrite E9. intros s Hs Hms. apply has_section_true.
    rewrite <- (Hextras s Hms). now apply Hall.
  - exists x. repeat split; auto.
    rewrite (Hextras x Hm) in Hnone. unfold ConfigParser.has_section.
    now rewrite Hnone.
Qed.

(** A section that the target lacks is not touched. *)
Lemma _maybe_preserve_sections_absent (template target merged : ConfigParser.t)
  (sections_pattern : Re.Pattern) (ignore_keys_pattern : option Re.Pattern)
  (s : string) :
  SetupcfgMerge._maybe_preserve_sections template target sections_pattern
    ignore_keys_pattern = Ok merged ->
  ConfigParser.has_section target s = false ->
  dict_get merged s = dict_get template s.
Proof.
  unfold SetupcfgMerge._maybe_preserve_sections, ConfigParser.sections.
  intros Hrun Hs.
  assert (Hnotin : ~ In s (keys target)).
  { intros Hin. apply dict_get_in_keys in Hin.
    unfold ConfigParser.has_section in Hs. now destruct (dict_get target s). }
  revert Hnotin Hrun. generalize (keys target) as l.
  intros l; revert template; induction l as [|x l IH]; intros template Hnotin; simpl.
  - now intros [= ->].
  - unfold SetupcfgMerge.preserve_section at 1.
    assert (Hne : s <> x) by (intros ->; apply Hnotin; now left).
    assert (Hl : ~ In s l) by (intros Hin; apply Hnotin; now right).
    destruct (Re.matches sections_pattern x); simpl; [|now apply IH].
    destruct (getitem target x) as [data|]; simpl; [|discriminate].
    destruct ignore_keys_pattern as [ign|]; simpl.
    + destruct (getitem template x) as [tsec|]; simpl; [|discriminate].
      intros Hrun. rewrite (IH _ Hl Hrun). unfold ConfigParser.set_section.
      now apply dict_get_set_other.
    + intros Hrun. rewrite (IH _ Hl Hrun). unfold ConfigParser.set_section.
      now apply dict_get_set_other.
Qed.

Lemma preserve_sections_absent (template target merged : ConfigParser.t) (s : string) :
  SetupcfgMerge.preserve_sections template target = Ok merged ->
  ConfigParser.has_section target s = false ->
  dict_get merged s = dict_get template s.
Proof.
  unfold SetupcfgMerge.preserve_sections. intros Hrun Hs.
  destruct (SetupcfgMerge._maybe_preserve_sections template target _ None)
    as [t1|] eqn:E1; simpl in Hrun; [|discriminate].
  destruct (SetupcfgMerge._maybe_preserve_sections t1 target _ None)
    as [t2|] eqn:E2; simpl in Hrun; [|discriminate].
  destruct (SetupcfgMerge._maybe_preserve_sections t2 target _ None)
    as [t3|] eqn:E3; simpl in Hrun; [|discriminate].
  destruct (SetupcfgMerge._maybe_preserve_sections t3 target _ None)
    as [t4|] eqn:E4; simpl in Hrun; [|discriminate].
  rewrite (_maybe_preserve_sections_absent _ _ _ _ _ s Hrun Hs).
  rewrite (_maybe_preserve_sections_absent _ _ _ _ _ s E4 Hs).
  rewrite (_maybe_preserve_sections_absent _ _ _ _ _ s E3 Hs).
  rewrite (_maybe_preserve_sections_absent _ _ _ _ _ s E2 Hs).
  apply (_maybe_preserve_sections_absent _ _ _ _ _ s E1 Hs).
Qed.

(** What follows the preservation of the sections in [apply]. *)
Lemma merge_after_preserve {R : Requirements} (template target merged : ConfigParser.t) :
  SetupcfgMerge.merge template (Some target) = Ok merged ->
  exists preserved,
    SetupcfgMerge.preserve_sections template target = Ok preserved
    /\ (forall s,
           s <> "options" -> s <> "options.extras_require" ->
           s <> "tool:pytest" -> s <> "build" ->
           dict_get merged s = dict_get preserved s)
    /\ (forall k,
           ConfigParser.lookup merged "tool:pytest" k
           = if String.eqb k "testpaths"
             then match ConfigParser.lookup target "tool:pytest" "testpaths" with
                  | Some v => Some v
                  | None => ConfigParser.lookup preserved "tool:pytest" "testpaths"
                  end
             else ConfigParser.lookup preserved "tool:pytest" k)
    /\ (forall k,
           ConfigParser.lookup merged "build" k
           = if String.eqb k "executable"
             then match ConfigParser.lookup target "build" "executable" with
                  | Some v => Some v
                  | None => ConfigParser.lookup preserved "build" "executable"
                  end
             else ConfigParser.lookup preserved "build" k).
Proof.
  unfold SetupcfgMerge.merge. intros Hrun.
  destruct (SetupcfgMerge.preserve_sections template target) as [t1|] eqn:E1;
    cbn [bind] in Hrun; [|discriminate].
  destruct (_maybe_preserve_key_spec t1 target "tool:pytest" "testpaths")
    as (t2 & E2 & L2 & S2 & _). rewrite E2 in Hrun. cbn [bind] in Hrun.
  destruct (_maybe_preserve_key_spec t2 target "build" "executable")
    as (t3 & E3 & L3 & S3 & _). rewrite E3 in Hrun. cbn [bind] in Hrun.
  destruct (_merge_requirements_spec t3 (Some target)
              "options.extras_require" "develop") as (t4 & E4 & L4 & S4 & _).
  rewrite E4 in Hrun. cbn [bind] in Hrun.
  destruct (_merge_requirements_spec t4 (Some target) "options" "install_requires")
    as (t5 & E5 & L5 & S5 & _).
  rewrite E5 in Hrun. injection Hrun as <-.
  exists t1. split; [reflexivity|]. split; [|split].
  - intros s H1 H2 H3 H4. now rewrite S5, S4, S3, S2.
  - intros k. rewrite L5. simpl. rewrite L4. simpl. rewrite L3. simpl.
    rewrite L2. simpl. destruct (String.eqb k "testpaths"); reflexivity.
  - intros k. rewrite L5. simpl. rewrite L4. simpl. rewrite L3. simpl.
    rewrite !L2. simpl. destruct (String.eqb k "executable"); reflexivity.
Qed.

(** X13: in a result of [SetupcfgMerge] with a target, the key
    [testpaths] of [tool:pytest] and the key [executable] of [build]
    hold the value of the target when the target has one and the value
    of the template otherwise; the other keys of these two sections are
    as in the template. *)
Theorem SetupcfgMerge_merge_single_keys {R : Requirements}
  (template target merged : ConfigParser.t) :
  SetupcfgMerge.merge template (Some target) = Ok merged ->
  let preserved section key :=
    match ConfigParser.lookup target section key with
    | Some v => Some v
    | None => ConfigParser.lookup template section key
    end in
  ConfigParser.lookup merged "tool:pytest" "testpaths"
  = preserved "tool:pytest" "testpaths"
  /\ ConfigParser.lookup merged "build" "executable" = preserved "build" "executable"
  /\ (forall k, k <> "testpaths" ->
                ConfigParser.lookup merged "tool:pytest" k
                = ConfigParser.lookup template "tool:pytest" k)
  /\ (forall k, k <> "executable" ->
                ConfigParser.lookup merged "build" k
                = ConfigParser.lookup template "build" k).
Proof.
  intros Hrun preserved.
  destruct (merge_after_preserve template target merged Hrun)
    as (t1 & E1 & _ & Hpytest & Hbuild).
  assert (F1 : dict_get t1 "tool:pytest" = dict_get template "tool:pytest")
    by (apply (preserve_sections_frame _ _ _ _ E1); reflexivity).
  assert (F2 : dict_get t1 "build" = dict_get template "build")
    by (apply (preserve_sections_frame _ _ _ _ E1); reflexivity).
  assert (L1 : forall k, ConfigParser.lookup t1 "tool:pytest" k
                         = ConfigParser.lookup template "tool:pytest" k)
    by (intros k; unfold ConfigParser.lookup; now rewrite F1).
  assert (L2 : forall k, ConfigParser.lookup t1 "build" k
                         = ConfigParser.lookup template "build" k)
    by (intros k; unfold ConfigParser.lookup; now rewrite F2).
  split; [|split; [|split]].
  - rewrite Hpytest, L1. reflexivity.
  - rewrite Hbuild, L2. reflexivity.
  - intros k Hk. rewrite Hpytest, L1. apply String.eqb_neq in Hk. now rewrite Hk.
  - intros k Hk. rewrite Hbuild, L2. apply String.eqb_neq in Hk. now rewrite Hk.
Qed.

Lemma SetupcfgMerge_merge_single_keys_witness :
  let template :=
    [("tool:pytest", [("testpaths", "tests"); ("addopts", "-q")]);
     ("build", [("executable", "/usr/bin/env python")])] in
  let target := [("tool:pytest", [("testpaths", "src/tests"); ("addopts", "-x")])] in
  exists merged,
    SetupcfgMerge.merge (R := SpecRequirements.requirements) template (Some target)
    = Ok merged
    /\ ConfigParser.lookup merged "tool:pytest" "testpaths" = Some "src/tests"
    /\ ConfigParser.lookup merged "tool:pytest" "addopts" = Some "-q"
    /\ ConfigParser.lookup merged "build" "executable" = Some "/usr/bin/env python".
Proof.
  intros template target. eexists. split; [reflexivity|].
  destruct (SetupcfgMerge_merge_single_keys (R := SpecRequirements.requirements)
              template target _ eq_refl) as (H1 & H2 & H3 & _).
  split; [exact H1|]. split; [|exact H2].
  apply H3. discriminate.
Defined.

(** X14: [SetupcfgMerge] leaves the rest of the template alone. In a
    result, a section other than [options] and [options.extras_require]
    is the section of the template when there is no target; with a
    target, so is a section other than these two, [tool:pytest] and
    [build] that the target lacks or that none of the five patterns
    matches. *)
Theorem SetupcfgMerge_merge_frame {R : Requirements}
  (template : ConfigParser.t) (target : option ConfigParser.t)
  (merged : ConfigParser.t) (s : string) :
  SetupcfgMerge.merge template target = Ok merged ->
  s <> "options" -> s <> "options.extras_require" ->
  match target with
  | None => True
  | Some target =>
      s <> "tool:pytest" /\ s <> "build"
      /\ (ConfigParser.has_section target s = false
          \/ (Re.matches (Re.compile "^freebsd$") s = false
              /\ Re.matches (Re.compile "^mypy-") s = false
              /\ Re.matches (Re.compile "^options.data_files$") s = false
              /\ Re.matches (Re.compile "^options.entry_points$") s = false
              /\ Re.matches (Re.compile "^options.extras_require$") s = false))
  end ->
  dict_get merged s = dict_get template s.
Proof.
  intros Hrun Hoptions Hextras Hs.
  destruct target as [target|].
  - destruct Hs as (Hpytest & Hbuild & Hs).
    destruct (merge_after_preserve template target merged Hrun)
      as (t1 & E1 & Hother & _).
    rewrite (Hother s) by assumption.
    destruct Hs as [Hs|(M1 & M2 & M3 & M4 & M5)].
    + now apply (preserve_sections_absent _ _ _ _ E1).
    + now apply (preserve_sections_frame _ _ _ _ E1).
  - unfold SetupcfgMerge.merge in Hrun. cbn [bind] in Hrun.
    destruct (_merge_requirements_spec template None
                "options.extras_require" "develop") as (t1 & E1 & _ & S1 & _).
    rewrite E1 in Hrun. cbn [bind] in Hrun.
    destruct (_merge_requirements_spec t1 None "options" "install_requires")
      as (t2 & E2 & _ & S2 & _).
    rewrite E2 in Hrun. injection Hrun as <-.
    now rewrite S2, S1.
Qed.

Lemma SetupcfgMerge_merge_frame_witness :
  let template :=
    [("metadata", [("name", "project")]);
     ("flake8", [("max-line-length", "88")])] in
  let target :=
    [("metadata", [("name", "fork")]);
     ("mypy-project.tests", [("ignore_errors", "True")])] in
  exists merged,
    SetupcfgMerge.merge (R := SpecRequirements.requirements) template (Some target)
    = Ok merged
    /\ dict_get merged "metadata" = Some [("name", "project")]
    /\ dict_get merged "flake8" = Some [("max-line-length", "88")].
Proof.
  intros template target. eexists. split; [reflexivity|]. split.
  - apply (SetupcfgMerge_merge_frame (R := SpecRequirements.requirements)
             template (Some target) _ "metadata" eq_refl); try discriminate.
    split; [discriminate|]. split; [discriminate|]. right. repeat split.
  - apply (SetupcfgMerge_merge_frame (R := SpecRequirements.requirements)
             template (Some target) _ "flake8" eq_refl); try discriminate.
    split; [discriminate|]. split; [discriminate|]. now left.
Defined.

(** The section [options.extras_require] after the preservation of the
    sections, when the target has it. *)
Lemma preserve_sections_extras_require (template target preserved : ConfigParser.t)
  (k : string) :
  ConfigParser.wf template = true ->
  ConfigParser.wf target = true ->
  SetupcfgMerge.preserve_sections template target = Ok preserved ->
  ConfigParser.has_section target "options.extras_require" = true ->
  ConfigParser.lookup preserved "options.extras_require" k
  = if Re.matches (Re.compile "^develop$") k
    then match ConfigParser.lookup template "options.extras_require" k with
         | Some v => Some v
         | None => ConfigParser.lookup target "options.extras_require" k
         end
    else ConfigParser.lookup target "options.extras_require" k.
Proof.
  unfold SetupcfgMerge.preserve_sections. intros Hwf Hwf' Hrun Hhas.
  destruct (SetupcfgMerge._maybe_preserve_sections template target _ None)
    as [t1|] eqn:E1; simpl in Hrun; [|discriminate].
  destruct (SetupcfgMerge._maybe_preserve_sections t1 target _ None)
    as [t2|] eqn:E2; simpl in Hrun; [|discriminate].
  destruct (SetupcfgMerge._maybe_preserve_sections t2 target _ None)
    as [t3|] eqn:E3; simpl in Hrun; [|discriminate].
  destruct (SetupcfgMerge._maybe_preserve_sections t3 target _ None)
    as [t4|] eqn:E4; simpl in Hrun; [|discriminate].
  assert (Hsame : forall s,
             Re.matches (Re.compile "^options.extras_require$") s = true ->
             dict_get t4 s = dict_get template s).
  { intros s Hs. destruct (extras_require_only s Hs) as (M1 & M2 & M3 & M4).
    rewrite (_maybe_preserve_sections_frame _ _ _ _ _ s E4 M4).
    rewrite (_maybe_preserve_sections_frame _ _ _ _ _ s E3 M3).
    rewrite (_maybe_preserve_sections_frame _ _ _ _ _ s E2 M2).
    apply (_maybe_preserve_sections_frame _ _ _ _ _ s E1 M1). }
  destruct (_maybe_preserve_sections_cases t4 target
              (Re.compile "^options.extras_require$") (Re.compile "^develop$"))
    as [(t5 & E5 & Hall)|(x & E5 & _)]; [|congruence].
  destruct (_maybe_preserve_sections_restore t4 target
              (Re.compile "^options.extras_require$") (Re.compile "^develop$")
              (wf_sections target Hwf') Hall) as (t5' & E5' & H5).
  assert (t5' = preserved) by congruence. subst t5'.
  apply has_section_true in Hhas.
  unfold ConfigParser.lookup. rewrite H5.
  change (Re.matches (Re.compile "^options.extras_require$") "options.extras_require")
    with true. cbv iota.
  rewrite (Hsame "options.extras_require" eq_refl).
  destruct (dict_get target "options.extras_require") as [data|] eqn:Ed;
    [|congruence].
  assert (Htemplate : dict_get template "options.extras_require" <> None).
  { rewrite <- (Hsame "options.extras_require" eq_refl).
    apply Hall; [|reflexivity]. apply dict_get_in_keys. congruence. }
  destruct (dict_get template "options.extras_require") as [d|] eqn:Et;
    [|congruence].
  apply restore_keys_get. now apply (wf_keys template "options.extras_require").
Qed.

(** The list of [develop] after the preservation of the sections gives
    the same merge with the list of the target as the list of the
    template: a value that the preservation has copied from the target
    brings no name that the target lacks. *)
Lemma develop_after_preserve {R : Requirements}
  (template target preserved : ConfigParser.t) :
  ConfigParser.wf template = true ->
  ConfigParser.wf target = true ->
  SetupcfgMerge.preserve_sections template target = Ok preserved ->
  let requirements_of parser :=
    match ConfigParser.lookup parser "options.extras_require" "develop" with
    | Some requirements => parse_setupcfg_requirements requirements
    | None => []
    end in
  SetupcfgMerge.wanted_requirements (requirements_of preserved) (requirements_of target)
  = SetupcfgMerge.wanted_requirements (requirements_of template) (requirements_of target).
Proof.
  intros Hwf Hwf' E1 requirements_of.
  unfold requirements_of at 1.
  destruct (ConfigParser.has_section target "options.extras_require") eqn:Hhas.
  - rewrite (preserve_sections_extras_require template target preserved "develop"
               Hwf Hwf' E1 Hhas).
    change (Re.matches (Re.compile "^develop$") "develop") with true. cbv iota.
    unfold requirements_of at 2.
    destruct (ConfigParser.lookup template "options.extras_require" "develop");
      [reflexivity|].
    fold (requirements_of target).
    rewrite !wanted_requirements_eq. simpl. f_equal. f_equal.
    apply filter_none. intros r Hr. apply negb_false_iff.
    apply existsb_eqb_in. now apply in_map.
  - unfold ConfigParser.lookup at 1.
    rewrite (preserve_sections_absent _ _ _ _ E1 Hhas). reflexivity.
Qed.

(** X15: in a result of [SetupcfgMerge] for parsers without repeated
    sections or keys, the key [develop] of [options.extras_require] holds
    the merge of the list of the template and the list of the target,
    although the section itself was first replaced by the section of the
    target. *)
Theorem SetupcfgMerge_merge_develop {R : Requirements}
  (template target merged : ConfigParser.t) :
  ConfigParser.wf template = true ->
  ConfigParser.wf target = true ->
  SetupcfgMerge.merge template (Some target) = Ok merged ->
  let requirements_of parser :=
    match ConfigParser.lookup parser "options.extras_require" "develop" with
    | Some requirements => parse_setupcfg_requirements requirements
    | None => []
    end in
  ConfigParser.lookup merged "options.extras_require" "develop"
  = Some (dump_setupcfg_requirements
            (SetupcfgMerge.wanted_requirements
               (requirements_of template) (requirements_of target))).
Proof.
  intros Hwf Hwf' Hrun requirements_of.
  unfold SetupcfgMerge.merge in Hrun.
  destruct (SetupcfgMerge.preserve_sections template target) as [t1|] eqn:E1;
    cbn [bind] in Hrun; [|discriminate].
  destruct (_maybe_preserve_key_spec t1 target "tool:pytest" "testpaths")
    as (t2 & E2 & L2 & _). rewrite E2 in Hrun. cbn [bind] in Hrun.
  destruct (_maybe_preserve_key_spec t2 target "build" "executable")
    as (t3 & E3 & L3 & _). rewrite E3 in Hrun. cbn [bind] in Hrun.
  destruct (_merge_requirements_spec t3 (Some target)
              "options.extras_require" "develop") as (t4 & E4 & L4 & _).
  rewrite E4 in Hrun. cbn [bind] in Hrun.
  destruct (_merge_requirements_spec t4 (Some target) "options" "install_requires")
    as (t5 & E5 & L5 & _).
  rewrite E5 in Hrun. injection Hrun as <-.
  rewrite L5. simpl. rewrite L4. simpl. f_equal. f_equal.
  rewrite L3. simpl. rewrite L2. simpl.
  exact (develop_after_preserve template target t1 Hwf Hwf' E1).
Qed.

Lemma SetupcfgMerge_merge_develop_witness :
  let template := [("options.extras_require", [("docs", "sphinx")])] in
  let target :=
    [("options.extras_require",
      [("develop", ("pytest" ++ String LF "Black==23.1")%string)])] in
  exists merged,
    SetupcfgMerge.merge (R := SpecRequirements.requirements) template (Some target)
    = Ok merged
    /\ ConfigParser.lookup merged "options.extras_require" "develop"
       = Some (String LF "Black==23.1" ++ String LF "pytest")%string.
Proof.
  intros template target. eexists. split; [reflexivity|].
  rewrite (SetupcfgMerge_merge_develop (R := SpecRequirements.requirements)
             template target _ eq_refl eq_refl eq_refl).
  reflexivity.
Defined.

(** ** The requirement keys of the result *)


